(* ===== verification/_CoqProject ===== *)
-Q . S2P
Prelude.v
JsNumber.v
JsValue.v
Base64.v
Key.v
FieldCipher.v
XorCipher.v
Hash.v
RecordTransform.v
