(* ===== verification/Prelude.v ===== *)
(** * A verification of the FinanceFlow field-encryption helper (LoanApp)

    The program is one JavaScript class, [FinanceFlowCrypto] in
    [src/encryption.js].  Its constructor stores a session key derived
    from the clock; [encrypt]/[decrypt] XOR a string with that key and
    convert to/from base 64 with the browser's [btoa]/[atob], returning
    their input unchanged when anything throws; [encryptApplicationData] and
    [decryptApplicationData] apply them to twenty named fields of a form
    record and mark the record with [_encrypted]/[_encryptionVersion];
    [generateHash] is a 32-bit rolling hash printed in base 36.  The
    record methods call the cipher methods through [this]; nothing else
    is shared, and the only state is the key, written once.

    ** Files (in dependency order) and what they model

    - [Prelude]: this header, the scope [js_scope], the hint databases
      [loanapp] and [loanapp_rw], the tactics [js_eval], [forall_inv],
      [zdivmod] and [by_decide], chunked list induction and the bit lemmas
      of XOR with a small key ([Z_lxor_lt_pow2], [Z_lxor_ge_pow2]).
    - [JsNumber]: the ECMAScript semantics the code relies on, modelled
      from the language standard: [Int32] ([ToInt32], [<<], [&], [^]) and
      [NumberToString] ([Number.prototype.toString(radix)] on integers,
      by digit recursion with fuel [digit_fuel n = log2 n + 1], proved
      always enough: [digit_fuel_enough], [radix_digits_value]).
    - [JsValue]: strings as lists of UTF-16 code units ([jsstr]), the
      values a field can hold ([jsval]: undefined, null, booleans,
      integral numbers, strings), truthiness and [ToString].
    - [Base64]: [btoa] and [atob] from the HTML standard (forgiving
      base-64), with the round trip [atob_b64_encode] and the failure
      cases [atob_rejects_non_latin1].
    - [Key] (module [Key]): [generateEncryptionKey] of lines 11-14, the
      clock reading as a parameter [now].
    - [FieldCipher]: the interface between the record methods and the
      cipher: the class [FieldCipher] (the two methods) and its laws
      [FieldCipherLaws].
    - [XorCipher] (module [FinanceFlowCrypto]): the object ([crypto], its
      field [key]), [constructor], [encrypt], [decrypt] and their loop
      [xor_loop], lines 4-59; the instance [xor_field_cipher] and the proof
      of the laws for every object the constructor builds
      ([constructor_laws]).
    - [Hash] (module [Hash]): [generateHash], lines 110-121.
    - [RecordTransform] (module [RecordTransform]):
      [encryptApplicationData] and [decryptApplicationData], lines 62-107,
      over records [gmap string jsval], in a section parameterised by the
      [FieldCipher] interface; the lifecycle of a record as the step
      relation [lifecycle_step].

    ** What the theorems show

    - Round trips: within a session [decrypt] undoes [encrypt] on every
      non-empty string ([session_decrypt_encrypt]); opening a sealed record
      returns it with its sensitive fields in string form and both markers
      set ([decrypt_encrypt_record], proved against the interface only).
    - Error paths and the spec's contract: text with a code unit above 255
      is stored unencrypted ([encrypt_keeps_non_latin1_plaintext]);
      [decrypt] returns undecodable input unchanged
      ([decrypt_keeps_undecodable]) and decodes a value sealed in another
      session to other text with no error ([decrypt_other_session]); a
      field of at most 24 code units is read back by any session
      ([short_field_readable_in_any_session]), and so is a whole record of
      such fields, the spec's wrong-key scenario included
      ([other_session_opens_short_record], from the two-cipher lemma
      [cross_cycle]); tampering with a stored value flips the same bits of
      the plaintext and is not detected
      ([ciphertext_tampering_undetected]); the session key is determined by
      the clock modulo 10^6 ([generateEncryptionKey_eq_iff]).
    - Record lifecycle: no guard against sealing twice
      ([encrypt_twice_double_seals]); [_encrypted] is never cleared
      ([sealed_flag_invariant], by rule induction on [rtc lifecycle_step]),
      so a second open decrypts plaintext ([decrypt_twice_reopens]).
    - Equivalences and bounds: the accumulating loop against the pointwise
      XOR ([xor_loop_lookup]); the hash against the polynomial with factor
      31 ([generateHash_reference]), its shape (1 to 6 base-36 digits, or
      the number 0 for the empty string: [generateHash_shape]) and its
      collisions ([generateHash_collision]); the stored value is ASCII
      ([encrypt_output_ascii]) and has exactly [4 * ceil(n / 3)] characters
      for [n] characters of Latin-1 text ([encrypt_length], from
      [length_b64_encode]), so it reveals the length of the plaintext.

    ** Bounds and fuel

    Numbers are [Z]: every number the class touches is an integer below
    2^53 (timestamps, code units below 2^16, 32-bit hashes), so JavaScript's
    double arithmetic is exact on them; the 32-bit wrap of [<<] and [&] is
    written out with [to_int32].  The only fuel is [digit_fuel]; the base-64
    loops and the XOR loop recurse on the list.

    ** Plan

    Done: every function of the class, the platform functions it calls,
    the interface between the record methods and the cipher, and the
    properties above.  Left for later: the spec's record state machine
    (PLAINTEXT/CIPHERTEXT with guarded sealRecord/openRecord) as an
    abstract module with a simulation relation to [lifecycle_step], showing
    where the code refines it (a first seal and open) and where it does
    not; the exact size of the key space; JavaScript property order of records, if
    a claim comes to depend on it.

    ** Not modelled

    The assignment [window.FinanceFlowCrypto = FinanceFlowCrypto] (line
    125: it only publishes the class); [console.error] (logging only); the
    clock itself (a parameter); object property order and non-integral
    numbers or objects in fields (the form stores strings and integers);
    the aliasing of [data] returned unchanged by [decryptApplicationData]
    (no caller mutates it in the source). *)

From stdpp Require Import base list strings.
From Stdlib Require Import ZArith Lia.

Declare Scope js_scope.
Delimit Scope js_scope with js.

Create HintDb loanapp discriminated.
Create Rewrite HintDb loanapp_rw.

Open Scope Z_scope.

(** ** Lists consumed three elements at a time (the base-64 groups) *)

Lemma list_chunk3_ind {A} (P : list A -> Prop) :
  P [] ->
  (forall a, P [a]) ->
  (forall a b, P [a; b]) ->
  (forall a b c l, P l -> P (a :: b :: c :: l)) ->
  forall l, P l.
Proof.
  intros H0 H1 H2 H3 l.
  remember (length l) as n eqn:E. revert l E.
  induction n as [n IH] using lt_wf_ind; intros l E.
  destruct l as [|a [|b [|c l]]]; simpl in E; auto.
  apply H3, (IH (length l)); [lia | reflexivity].
Qed.

Lemma list_chunk4_ind {A} (P : list A -> Prop) :
  P [] ->
  (forall a, P [a]) ->
  (forall a b, P [a; b]) ->
  (forall a b c, P [a; b; c]) ->
  (forall a b c d l, P l -> P (a :: b :: c :: d :: l)) ->
  forall l, P l.
Proof.
  intros H0 H1 H2 H3 H4 l.
  remember (length l) as n eqn:E. revert l E.
  induction n as [n IH] using lt_wf_ind; intros l E.
  destruct l as [|a [|b [|c [|d l]]]]; simpl in E; auto.
  apply H4, (IH (length l)); [lia | reflexivity].
Qed.

(** ** Bounds of non-negative integers through their high bits *)

Lemma Z_lt_pow2_shiftr (x n : Z) :
  0 <= x -> 0 <= n -> x < 2 ^ n <-> Z.shiftr x n = 0.
Proof.
  intros Hx Hn. rewrite Z.shiftr_eq_0_iff.
  destruct (Z.eq_dec x 0) as [->|Hx0].
  - split; [auto | intros _; apply Z.pow_pos_nonneg; lia].
  - split.
    + intros Hlt. right. split; [lia|]. apply Z.log2_lt_pow2; lia.
    + intros [|[Hpos Hlog]]; [lia|]. apply Z.log2_lt_pow2; lia.
Qed.

(** XOR with a value below [2^n] keeps a value below [2^n] and keeps a
    value at or above [2^n] at or above it: the high bits are untouched. *)
Lemma Z_lxor_shiftr_low (a b n : Z) :
  0 <= b < 2 ^ n -> 0 <= n -> Z.shiftr (Z.lxor a b) n = Z.shiftr a n.
Proof.
  intros Hb Hn. rewrite Z.shiftr_lxor.
  rewrite (proj1 (Z_lt_pow2_shiftr b n ltac:(lia) Hn) ltac:(lia)).
  apply Z.lxor_0_r.
Qed.

Lemma Z_lxor_lt_pow2 (a b n : Z) :
  0 <= a < 2 ^ n -> 0 <= b < 2 ^ n -> 0 <= n -> 0 <= Z.lxor a b < 2 ^ n.
Proof.
  intros Ha Hb Hn.
  assert (0 <= Z.lxor a b) by (apply Z.lxor_nonneg; lia).
  split; [lia|]. apply Z_lt_pow2_shiftr; [lia | lia |].
  rewrite Z_lxor_shiftr_low by lia. apply Z_lt_pow2_shiftr; lia.
Qed.

Lemma Z_lxor_ge_pow2 (a b n : Z) :
  2 ^ n <= a -> 0 <= b < 2 ^ n -> 0 <= n -> 2 ^ n <= Z.lxor a b.
Proof.
  intros Ha Hb Hn.
  assert (0 <= Z.lxor a b) by (apply Z.lxor_nonneg; lia).
  destruct (Z_lt_le_dec (Z.lxor a b) (2 ^ n)) as [Hlt|]; [|lia].
  apply Z_lt_pow2_shiftr in Hlt; [|lia|lia].
  rewrite Z_lxor_shiftr_low in Hlt by lia.
  apply Z_lt_pow2_shiftr in Hlt; lia.
Qed.

Lemma Z_lxor_cancel_r (a b : Z) : Z.lxor (Z.lxor a b) b = a.
Proof. by rewrite Z.lxor_assoc, Z.lxor_nilpotent, Z.lxor_0_r. Qed.

#[export] Hint Rewrite Z_lxor_cancel_r : loanapp_rw.
#[export] Hint Resolve Z_lxor_lt_pow2 : loanapp.

(** ** Tactics shared by the component files *)

(** Close a goal about concrete code units and integers by evaluation. *)
Ltac js_eval := vm_compute; reflexivity.

(** Split the [Forall] hypotheses of a cons list and close bounds by [lia]. *)
Ltac forall_inv :=
  repeat match goal with
  | H : Forall _ (_ :: _) |- _ => apply Forall_cons in H as [? ?]
  | H : Forall _ (_ ++ _) |- _ => apply Forall_app in H as [? ?]
  end.

(** Arithmetic with division and remainder by constants. *)
Ltac zdivmod := Z.div_mod_to_equations; lia.

(** Prove a decidable proposition about concrete data by evaluation. *)
Ltac by_decide := apply (bool_decide_unpack _); vm_compute; exact I.
