(* ===== verification/JsNumber.v ===== *)
(** * JavaScript numbers as the helper uses them

    The ECMAScript operations on integral numbers that [src/encryption.js]
    relies on: [ToInt32] and the 32-bit operators [<<] and [&] of
    [generateHash], [Math.abs], and [Number.prototype.toString(radix)],
    used for the timestamp of [generateEncryptionKey] (radix 10), the hash
    token (radix 36) and the numeric field values of a record.  Numbers are
    modelled as [Z]: every number the helper handles is an integer (a
    timestamp, a code unit, a 32-bit hash), below 2^53. *)

From stdpp Require Import base list.
From Stdlib Require Import ZArith Lia.
From S2P Require Import Prelude.

Open Scope Z_scope.

Module Int32.

(** ECMAScript ToInt32 on an integral number. *)
Definition to_int32 (x : Z) : Z :=
  let m := x mod 2 ^ 32 in
  if 2 ^ 31 <=? m then m - 2 ^ 32 else m.

(** [x << n]: both operands converted, shift count taken mod 32. *)
Definition shl32 (x n : Z) : Z :=
  to_int32 (Z.shiftl (to_int32 x) (n mod 32)).

(** [a & b] on the two's-complement 32-bit values. *)
Definition and32 (a b : Z) : Z :=
  Z.land (to_int32 a) (to_int32 b).

Definition is_int32 (x : Z) : bool := (- 2 ^ 31 <=? x) && (x <? 2 ^ 31).

Lemma to_int32_range x : - 2 ^ 31 <= to_int32 x < 2 ^ 31.
Proof.
  unfold to_int32. pose proof (Z.mod_pos_bound x (2 ^ 32) ltac:(lia)).
  destruct (Z.leb_spec (2 ^ 31) (x mod 2 ^ 32)); lia.
Qed.

Lemma to_int32_mod x : to_int32 x mod 2 ^ 32 = x mod 2 ^ 32.
Proof.
  unfold to_int32. destruct (Z.leb_spec (2 ^ 31) (x mod 2 ^ 32)).
  - rewrite Zminus_mod, Z.mod_same, Z.sub_0_r, !Z.mod_mod by lia. reflexivity.
  - apply Z.mod_mod. lia.
Qed.

(** [to_int32] depends only on the residue mod 2^32. *)
Lemma to_int32_eq_mod x y :
  x mod 2 ^ 32 = y mod 2 ^ 32 -> to_int32 x = to_int32 y.
Proof. unfold to_int32. intros ->. reflexivity. Qed.

Lemma to_int32_id x : - 2 ^ 31 <= x < 2 ^ 31 -> to_int32 x = x.
Proof.
  intros Hx. unfold to_int32.
  destruct (Z.leb_spec 0 x).
  - rewrite Z.mod_small by lia. destruct (Z.leb_spec (2 ^ 31) x); lia.
  - replace (x mod 2 ^ 32) with (x + 2 ^ 32).
    + destruct (Z.leb_spec (2 ^ 31) (x + 2 ^ 32)); lia.
    + rewrite <- (Z.mod_small (x + 2 ^ 32) (2 ^ 32)) by lia.
      rewrite Zplus_mod, Z.mod_same, Z.add_0_r, Z.mod_mod by lia. reflexivity.
Qed.

Lemma to_int32_idem x : to_int32 (to_int32 x) = to_int32 x.
Proof. apply to_int32_id, to_int32_range. Qed.

Lemma to_int32_add_mod x y :
  to_int32 (to_int32 x + y) = to_int32 (x + y).
Proof.
  apply to_int32_eq_mod.
  rewrite Zplus_mod, to_int32_mod, <- Zplus_mod. reflexivity.
Qed.

Lemma to_int32_sub_mod x y :
  to_int32 (to_int32 x - y) = to_int32 (x - y).
Proof.
  apply to_int32_eq_mod.
  rewrite Zminus_mod, to_int32_mod, <- Zminus_mod. reflexivity.
Qed.

(** [x & x] is the ToInt32 conversion ("Convert to 32-bit integer"). *)
Lemma and32_diag x : and32 x x = to_int32 x.
Proof. unfold and32. apply Z.land_diag. Qed.

(** A left shift by 5 is a multiplication by 32 modulo 2^32. *)
Lemma shl32_5 x : shl32 x 5 = to_int32 (32 * x).
Proof.
  unfold shl32. change (5 mod 32) with 5.
  rewrite Z.shiftl_mul_pow2 by lia.
  apply to_int32_eq_mod.
  rewrite Z.mul_comm, Zmult_mod, to_int32_mod, <- Zmult_mod. reflexivity.
Qed.

Lemma is_int32_spec x : is_int32 x = true <-> - 2 ^ 31 <= x < 2 ^ 31.
Proof. unfold is_int32. rewrite andb_true_iff, Z.leb_le, Z.ltb_lt. lia. Qed.

(** [a ^ b] on the two's-complement 32-bit values. *)
Definition xor32 (a b : Z) : Z := Z.lxor (to_int32 a) (to_int32 b).

Lemma xor32_nonneg a b :
  0 <= a < 2 ^ 31 -> 0 <= b < 2 ^ 31 -> xor32 a b = Z.lxor a b.
Proof. intros Ha Hb. unfold xor32. rewrite !to_int32_id by lia. reflexivity. Qed.

End Int32.

#[export] Hint Rewrite Int32.to_int32_idem Int32.and32_diag Int32.shl32_5 : loanapp_rw.
#[export] Hint Resolve Int32.to_int32_range : loanapp.

Module NumberToString.

(** Digits of [n] in base [radix], least significant first.  The fuel
    bounds the number of digits; [digit_fuel] below is always enough. *)
Fixpoint radix_rev (radix : Z) (fuel : nat) (n : Z) : list Z :=
  match fuel with
  | O => []
  | S f => n mod radix :: (if n <? radix then [] else radix_rev radix f (n / radix))
  end.

(** One digit per bit is more than enough for any radix >= 2. *)
Definition digit_fuel (n : Z) : nat := S (Z.to_nat (Z.log2 n)).

Definition radix_digits (radix n : Z) : list Z :=
  rev (radix_rev radix (digit_fuel n) n).

(** '0'..'9' then 'a'..'z', as code units. *)
Definition digit_char (d : Z) : Z := if d <? 10 then 48 + d else 87 + d.

(** [Number.prototype.toString(radix)] on an integral number. *)
Definition number_to_string_radix (radix n : Z) : list Z :=
  (if n <? 0 then [45] else []) ++ map digit_char (radix_digits radix (Z.abs n)).

(** [Number.prototype.toString()]: radix 10. *)
Definition number_to_string (n : Z) : list Z := number_to_string_radix 10 n.

(** The inverse of [digit_char] on one digit: distinct digits print as
    distinct characters. *)
Definition digit_value (c : Z) : Z := if c <? 58 then c - 48 else c - 87.

(** The value of a little-endian digit list, and the fixed-width digits
    of a number (the last [k] characters of its printed form). *)
Definition horner (radix : Z) (ds : list Z) : Z :=
  foldr (fun d acc => d + radix * acc) 0 ds.

Fixpoint fixed_rev (radix : Z) (k : nat) (n : Z) : list Z :=
  match k with
  | O => []
  | S k' => n mod radix :: fixed_rev radix k' (n / radix)
  end.

Section Radix.
Context (radix : Z) (Hradix : 2 <= radix).

Lemma radix_rev_horner f n :
  0 <= n < radix ^ Z.of_nat f -> horner radix (radix_rev radix f n) = n.
Proof.
  revert n. induction f as [|f IH]; intros n Hn; simpl.
  - rewrite Z.pow_0_r in Hn. lia.
  - destruct (Z.ltb_spec n radix); simpl.
    + rewrite Z.mod_small by lia. lia.
    + rewrite IH.
      * pose proof (Z.div_mod n radix). lia.
      * split; [apply Z.div_pos; lia|].
        apply Z.div_lt_upper_bound; [lia|].
        rewrite Nat2Z.inj_succ, Z.pow_succ_r in Hn by lia. lia.
Qed.

Lemma radix_rev_digits f n :
  0 <= n -> Forall (fun d => 0 <= d < radix) (radix_rev radix f n).
Proof.
  revert n. induction f as [|f IH]; intros n Hn; simpl; [constructor|].
  constructor; [apply Z.mod_pos_bound; lia|].
  destruct (n <? radix); [constructor|]. apply IH, Z.div_pos; lia.
Qed.

Lemma digit_fuel_enough n : 0 <= n -> n < radix ^ Z.of_nat (digit_fuel n).
Proof.
  intros Hn. unfold digit_fuel.
  rewrite Nat2Z.inj_succ, Z2Nat.id by apply Z.log2_nonneg.
  destruct (Z.eq_dec n 0) as [->|].
  - simpl. apply Z.pow_pos_nonneg; lia.
  - pose proof (Z.log2_spec n ltac:(lia)) as [_ Hlt].
    eapply Z.lt_le_trans; [exact Hlt|].
    apply Z.pow_le_mono_l. split; [lia | exact Hradix].
Qed.

(** The fuel [digit_fuel] is enough: the printed digits denote [n]. *)
Lemma radix_digits_value n : 0 <= n -> horner radix (rev (radix_digits radix n)) = n.
Proof.
  intros Hn. unfold radix_digits. rewrite rev_involutive.
  apply radix_rev_horner. split; [done|]. by apply digit_fuel_enough.
Qed.

Lemma digit_value_char d : 0 <= d < 36 -> digit_value (digit_char d) = d.
Proof.
  intros Hd. unfold digit_char, digit_value.
  destruct (Z.ltb_spec d 10); [rewrite (proj2 (Z.ltb_lt _ 58)) by lia; lia|].
  rewrite (proj2 (Z.ltb_ge _ 58)) by lia. lia.
Qed.

Lemma radix_rev_length f n k :
  (1 <= k)%nat -> 0 <= n < radix ^ Z.of_nat k -> (length (radix_rev radix f n) <= k)%nat.
Proof.
  revert n k. induction f as [|f IH]; intros n k Hk Hn; simpl; [lia|].
  destruct (Z.ltb_spec n radix); simpl; [lia|].
  destruct k as [|[|k]]; [lia| simpl in Hn; lia |].
  assert (length (radix_rev radix f (n / radix)) <= S k)%nat; [|lia].
  apply IH; [lia|]. split; [apply Z.div_pos; lia|].
  apply Z.div_lt_upper_bound; [lia|].
  rewrite Nat2Z.inj_succ, Z.pow_succ_r in Hn by lia. lia.
Qed.

Lemma take_radix_rev k f n :
  (1 <= k <= f)%nat -> radix ^ (Z.of_nat k - 1) <= n ->
  take k (radix_rev radix f n) = fixed_rev radix k n.
Proof.
  revert f n. induction k as [|k IH]; intros f n Hk Hn; [lia|].
  destruct f as [|f]; [lia|]. simpl.
  destruct k as [|k]; [reflexivity|].
  assert (radix <= n).
  { eapply Z.le_trans; [|exact Hn].
    rewrite <- (Z.pow_1_r radix) at 1. apply Z.pow_le_mono_r; lia. }
  rewrite (proj2 (Z.ltb_ge _ _)) by lia. f_equal. apply IH; [lia|].
  apply Z.div_le_lower_bound; [lia|].
  rewrite <- Z.pow_succ_r by lia. eapply Z.le_trans; [|exact Hn].
  apply Z.pow_le_mono_r; lia.
Qed.

Lemma fixed_rev_horner k n :
  horner radix (fixed_rev radix k n) = n mod radix ^ Z.of_nat k.
Proof.
  revert n. induction k as [|k IH]; intros n; simpl.
  - rewrite Z.mod_1_r. reflexivity.
  - rewrite IH, Nat2Z.inj_succ, Z.pow_succ_r by lia.
    rewrite Z.rem_mul_r by (try apply Z.pow_pos_nonneg; lia). reflexivity.
Qed.

(** Two numbers have the same last [k] digits iff they agree mod radix^k. *)
Lemma fixed_rev_eq_iff k a b :
  fixed_rev radix k a = fixed_rev radix k b <->
  a mod radix ^ Z.of_nat k = b mod radix ^ Z.of_nat k.
Proof.
  split.
  - intros E. rewrite <- !fixed_rev_horner, E. reflexivity.
  - revert a b. induction k as [|k IH]; intros a b E; [reflexivity|].
    rewrite Nat2Z.inj_succ, Z.pow_succ_r in E by lia.
    rewrite !Z.rem_mul_r in E by (try apply Z.pow_pos_nonneg; lia).
    pose proof (Z.mod_pos_bound a radix ltac:(lia)).
    pose proof (Z.mod_pos_bound b radix ltac:(lia)).
    pose proof (Z.mod_pos_bound (a / radix) (radix ^ Z.of_nat k)
                  ltac:(apply Z.pow_pos_nonneg; lia)).
    pose proof (Z.mod_pos_bound (b / radix) (radix ^ Z.of_nat k)
                  ltac:(apply Z.pow_pos_nonneg; lia)).
    assert (a mod radix = b mod radix) as Hlow.
    { apply (f_equal (fun z => z mod radix)) in E.
      rewrite !(Z.mul_comm radix), !Z.mod_add, !Z.mod_mod in E by lia. exact E. }
    simpl. rewrite Hlow, (IH (a / radix) (b / radix)); [reflexivity|nia].
Qed.

Lemma map_digit_char_inj ds1 ds2 :
  radix <= 36 ->
  Forall (fun d => 0 <= d < radix) ds1 -> Forall (fun d => 0 <= d < radix) ds2 ->
  map digit_char ds1 = map digit_char ds2 -> ds1 = ds2.
Proof.
  intros Hr H1. revert ds2.
  induction H1 as [|d1 ds1 Hd1 _ IH]; intros [|d2 ds2] H2 E; try done.
  inversion H2 as [|? ? Hd2 H2']; subst. simpl in E. injection E as Ed E.
  rewrite (IH ds2 H2' E).
  rewrite <- (digit_value_char d1), <- (digit_value_char d2), Ed by lia.
  reflexivity.
Qed.

Lemma number_to_string_radix_nonneg n :
  0 <= n -> number_to_string_radix radix n =
            map digit_char (rev (radix_rev radix (digit_fuel n) n)).
Proof.
  intros Hn. unfold number_to_string_radix, radix_digits.
  rewrite (proj2 (Z.ltb_ge _ _)), Z.abs_eq by lia. reflexivity.
Qed.

Lemma fixed_rev_digits k n :
  Forall (fun d => 0 <= d < radix) (fixed_rev radix k n).
Proof.
  revert n. induction k as [|k IH]; intros n; simpl; [constructor|].
  constructor; [apply Z.mod_pos_bound; lia | apply IH].
Qed.

Lemma length_fixed_rev k n : length (fixed_rev radix k n) = k.
Proof. revert n. induction k; intros; simpl; auto. Qed.

End Radix.

Example number_to_string_radix_2_31 :
  number_to_string_radix 36 2147483648 = [122; 105; 107; 48; 122; 107] (* "zik0zk" *).
Proof. reflexivity. Qed.

End NumberToString.
