(* ===== verification/JsValue.v ===== *)
(** * JavaScript strings and values as the helper sees them

    A JavaScript string is a sequence of UTF-16 code units: [charCodeAt]
    reads one, [String.fromCharCode] builds one.  A record field holds a
    JavaScript value; the helper tests it for truthiness ([if (x)]) and
    converts it with [toString()] ([encryptApplicationData]) or with the
    implicit DOMString conversion of [atob] ([decrypt]).  Objects and
    non-integral numbers never reach the helper's fields in the modelled
    form data and are not represented. *)

From stdpp Require Import base list strings.
From Stdlib Require Import ZArith Lia.
From S2P Require Import Prelude JsNumber.

Open Scope Z_scope.

(** A string is its list of code units. *)
Abbreviation jsstr := (list Z) (only parsing).

Definition code_unit (c : Z) : Prop := 0 <= c < 2 ^ 16.
Definition latin1 (c : Z) : Prop := 0 <= c < 2 ^ 8.

#[export] Instance code_unit_dec c : Decision (code_unit c).
Proof. unfold code_unit. apply _. Defined.
#[export] Instance latin1_dec c : Decision (latin1 c).
Proof. unfold latin1. apply _. Defined.

(** Well-formed strings hold code units only. *)
Definition wf_str (s : jsstr) : Prop := Forall code_unit s.

(** [String.fromCharCode(x)]: ToUint16. *)
Definition from_char_code (x : Z) : Z := x mod 2 ^ 16.

(** ASCII literals of the source ("FinanceFlow2024SecureApp", "1.0", the
    field names' values) as code units. *)
Definition of_ascii (s : string) : jsstr :=
  map (fun a => Z.of_N (Ascii.N_of_ascii a)) (String.list_ascii_of_string s).

Notation "'js:' s" := (of_ascii s%string) (at level 10) : js_scope.
Open Scope js_scope.

Inductive jsval :=
| JUndefined
| JNull
| JBool (b : bool)
| JNum (n : Z)
| JStr (s : jsstr).

#[export] Instance jsval_eq_dec : EqDecision jsval.
Proof. solve_decision. Defined.

(** [if (v)]: ToBoolean. *)
Definition truthy (v : jsval) : bool :=
  match v with
  | JUndefined | JNull => false
  | JBool b => b
  | JNum n => negb (n =? 0)
  | JStr s => negb (bool_decide (s = []))
  end.

(** [obj[field]] reads [undefined] for an absent property. *)
Definition truthy_opt (o : option jsval) : bool :=
  match o with Some v => truthy v | None => false end.

(** ToString ([String(v)], [v.toString()] on non-nullish values). *)
Definition to_string (v : jsval) : jsstr :=
  match v with
  | JUndefined => js:"undefined"
  | JNull => js:"null"
  | JBool true => js:"true"
  | JBool false => js:"false"
  | JNum n => NumberToString.number_to_string n
  | JStr s => s
  end.

Definition wf_val (v : jsval) : Prop :=
  match v with JStr s => wf_str s | _ => True end.

#[export] Instance wf_val_dec v : Decision (wf_val v).
Proof. destruct v; simpl; [left; done .. |]. unfold wf_str. apply _. Defined.

Lemma number_to_string_nonempty n : NumberToString.number_to_string n <> [].
Proof.
  unfold NumberToString.number_to_string, NumberToString.number_to_string_radix,
    NumberToString.radix_digits, NumberToString.digit_fuel.
  simpl. intros E. apply app_eq_nil in E as [_ E].
  apply map_eq_nil in E. apply (f_equal (@length Z)) in E.
  rewrite length_app in E. simpl in E. lia.
Qed.

Lemma number_to_string_ascii n :
  Forall (fun c => 0 <= c < 128) (NumberToString.number_to_string n).
Proof.
  unfold NumberToString.number_to_string, NumberToString.number_to_string_radix.
  apply Forall_app. split; [destruct (n <? 0); repeat constructor; lia|].
  apply Forall_map. unfold NumberToString.radix_digits. apply Forall_rev.
  eapply Forall_impl; [apply (NumberToString.radix_rev_digits 10); lia|].
  intros d Hd. cbv beta in *. unfold NumberToString.digit_char.
  destruct (Z.ltb_spec d 10); lia.
Qed.

Lemma to_string_truthy_nonempty v : truthy v = true -> to_string v <> [].
Proof.
  destruct v as [| |[]|n|s]; simpl; try discriminate; intros Hv.
  - apply number_to_string_nonempty.
  - apply negb_true_iff, bool_decide_eq_false in Hv. exact Hv.
Qed.

Lemma to_string_wf v : wf_val v -> wf_str (to_string v).
Proof.
  intros Hv. destruct v as [| |[]|n|s]; simpl in *; try done;
    try (unfold wf_str, code_unit; repeat constructor; lia).
  eapply Forall_impl; [apply number_to_string_ascii|]. unfold code_unit. lia.
Qed.
