(* ===== verification/Base64.v ===== *)
(** * The browser's [btoa] and [atob]

    [encrypt] ends with [btoa(encrypted)] and [decrypt] starts with
    [atob(encryptedText)].  Both are platform functions (HTML standard,
    "forgiving-base64 encode/decode"), modelled here from that standard:
    [btoa] throws on a code unit above 255, [atob] strips ASCII
    whitespace, drops one or two final '=' when the length is a multiple
    of four, and throws on a length of 1 mod 4 or on a character outside
    the alphabet.  A thrown exception is [None].  The 24-bit buffer of the
    standard is written with multiplications and divisions by powers of
    two. *)

From stdpp Require Import base list strings.
From Stdlib Require Import ZArith Lia.
From S2P Require Import Prelude JsValue.

Open Scope Z_scope.
Open Scope js_scope.

Module Base64.

(** 'A'..'Z', 'a'..'z', '0'..'9', '+', '/' as code units. *)
Definition b64_char (v : Z) : Z :=
  if v <? 26 then 65 + v
  else if v <? 52 then 71 + v
  else if v <? 62 then v - 4
  else if v =? 62 then 43 else 47.

Definition b64_value (c : Z) : option Z :=
  if (65 <=? c) && (c <=? 90) then Some (c - 65)
  else if (97 <=? c) && (c <=? 122) then Some (c - 71)
  else if (48 <=? c) && (c <=? 57) then Some (c + 4)
  else if c =? 43 then Some 62
  else if c =? 47 then Some 63
  else None.

(** The four 6-bit groups of a 24-bit buffer. *)
Definition sextets (n : Z) : list Z :=
  [n / 2 ^ 18; (n / 2 ^ 12) mod 64; (n / 2 ^ 6) mod 64; n mod 64].

Fixpoint b64_encode (bs : list Z) : list Z :=
  match bs with
  | b0 :: b1 :: b2 :: rest =>
      map b64_char (sextets (b0 * 2 ^ 16 + b1 * 2 ^ 8 + b2)) ++ b64_encode rest
  | [b0; b1] => map b64_char (take 3 (sextets (b0 * 2 ^ 16 + b1 * 2 ^ 8))) ++ [61]
  | [b0] => map b64_char (take 2 (sextets (b0 * 2 ^ 16))) ++ [61; 61]
  | [] => []
  end.

(** [btoa]: InvalidCharacterError on a code unit above 255. *)
Definition btoa (s : jsstr) : option jsstr :=
  if decide (Forall latin1 s) then Some (b64_encode s) else None.

Definition is_ascii_whitespace (c : Z) : bool :=
  (c =? 9) || (c =? 10) || (c =? 12) || (c =? 13) || (c =? 32).

(** "If data ends with one or two U+003D (=) code points, remove them." *)
Definition strip_padding (s : jsstr) : jsstr :=
  match rev s with
  | x :: y :: r =>
      if (x =? 61) && (y =? 61) then rev r
      else if x =? 61 then rev (y :: r) else s
  | [x] => if x =? 61 then [] else s
  | [] => s
  end.

Fixpoint b64_values (s : jsstr) : option (list Z) :=
  match s with
  | [] => Some []
  | c :: s' =>
      match b64_value c, b64_values s' with
      | Some v, Some vs => Some (v :: vs)
      | _, _ => None
      end
  end.

(** The buffer emits three bytes per four characters; a final group of
    18 bits drops 2 bits and gives two bytes, one of 12 bits drops 4 bits
    and gives one byte. *)
Fixpoint b64_decode_values (vs : list Z) : list Z :=
  match vs with
  | a :: b :: c :: d :: rest =>
      let n := a * 2 ^ 18 + b * 2 ^ 12 + c * 2 ^ 6 + d in
      [n / 2 ^ 16; (n / 2 ^ 8) mod 256; n mod 256] ++ b64_decode_values rest
  | [a; b; c] =>
      let n := (a * 2 ^ 12 + b * 2 ^ 6 + c) / 2 ^ 2 in [n / 2 ^ 8; n mod 256]
  | [a; b] => [(a * 2 ^ 6 + b) / 2 ^ 4]
  | _ => []
  end.

(** [atob]: forgiving-base64 decode, InvalidCharacterError on failure. *)
Definition atob (s : jsstr) : option jsstr :=
  let s1 := List.filter (fun c => negb (is_ascii_whitespace c)) s in
  let s2 := if Nat.eqb (length s1 mod 4) 0 then strip_padding s1 else s1 in
  if Nat.eqb (length s2 mod 4) 1 then None
  else match b64_values s2 with
       | Some vs => Some (b64_decode_values vs)
       | None => None
       end.

(** ** Alphabet *)

Lemma b64_value_char v : 0 <= v < 64 -> b64_value (b64_char v) = Some v.
Proof.
  intros Hv. unfold b64_char, b64_value.
  destruct (Z.ltb_spec v 26); simpl.
  { rewrite (proj2 (Z.leb_le 65 _)), (proj2 (Z.leb_le _ 90)) by lia. simpl. f_equal; lia. }
  destruct (Z.ltb_spec v 52); simpl.
  { rewrite (proj2 (Z.leb_le 65 _)), (proj2 (Z.leb_gt _ 90)) by lia. simpl.
    rewrite (proj2 (Z.leb_le 97 _)), (proj2 (Z.leb_le _ 122)) by lia. simpl. f_equal; lia. }
  destruct (Z.ltb_spec v 62); simpl.
  { rewrite (proj2 (Z.leb_gt 65 _)), (proj2 (Z.leb_gt 97 _)) by lia. simpl.
    rewrite (proj2 (Z.leb_le 48 _)), (proj2 (Z.leb_le _ 57)) by lia. simpl. f_equal; lia. }
  destruct (Z.eqb_spec v 62) as [->|]; [reflexivity|].
  replace v with 63 by lia. reflexivity.
Qed.

(** A character of the alphabet is neither '=' nor whitespace. *)
Lemma b64_value_Some_not_pad c v : b64_value c = Some v -> c <> 61.
Proof. intros Hc ->. discriminate. Qed.

Lemma b64_value_Some_not_ws c v :
  b64_value c = Some v -> is_ascii_whitespace c = false.
Proof.
  unfold b64_value, is_ascii_whitespace. intros Hc.
  repeat match goal with
  | |- context [?a =? ?b] => destruct (Z.eqb_spec a b); subst; simpl in Hc
  end; try discriminate; reflexivity.
Qed.

Lemma b64_values_map_char vs :
  Forall (fun v => 0 <= v < 64) vs -> b64_values (map b64_char vs) = Some vs.
Proof.
  induction 1 as [|v vs Hv _ IH]; [reflexivity|]. simpl.
  by rewrite b64_value_char, IH.
Qed.

Lemma b64_char_spec v :
  0 <= v < 64 -> b64_char v <> 61 /\ is_ascii_whitespace (b64_char v) = false.
Proof.
  intros Hv. pose proof (b64_value_char v Hv).
  split; [eapply b64_value_Some_not_pad | eapply b64_value_Some_not_ws]; eauto.
Qed.

(** ** One group of the buffer *)

Lemma sextets_range n : 0 <= n < 2 ^ 24 -> Forall (fun v => 0 <= v < 64) (sextets n).
Proof. intros Hn. repeat constructor; zdivmod. Qed.

Lemma decode_group3 b0 b1 b2 rest :
  latin1 b0 -> latin1 b1 -> latin1 b2 ->
  b64_decode_values (sextets (b0 * 2 ^ 16 + b1 * 2 ^ 8 + b2) ++ rest) =
  [b0; b1; b2] ++ b64_decode_values rest.
Proof.
  unfold latin1, sextets. intros H0 H1 H2. simpl. do 3 f_equal; zdivmod.
Qed.

Lemma decode_group2 b0 b1 :
  latin1 b0 -> latin1 b1 ->
  b64_decode_values (take 3 (sextets (b0 * 2 ^ 16 + b1 * 2 ^ 8))) = [b0; b1].
Proof. unfold latin1, sextets. intros H0 H1. simpl. do 2 f_equal; zdivmod. Qed.

Lemma decode_group1 b0 :
  latin1 b0 -> b64_decode_values (take 2 (sextets (b0 * 2 ^ 16))) = [b0].
Proof. unfold latin1, sextets. intros H0. simpl. f_equal; zdivmod. Qed.

(** ** Shape of an encoding: alphabet characters, then the padding *)

Lemma b64_encode_shape s :
  Forall latin1 s ->
  exists body k,
    b64_encode s = map b64_char body ++ replicate k 61 /\ (k <= 2)%nat /\
    Forall (fun v => 0 <= v < 64) body /\
    ((length body + k) mod 4 = 0)%nat /\ (length body mod 4 <> 1)%nat /\
    b64_decode_values body = s.
Proof.
  induction s as [|b0|b0 b1|b0 b1 b2 s IH] using list_chunk3_ind; intros Hs;
    forall_inv; unfold latin1 in *.
  - exists [], 0%nat. repeat split; simpl; auto.
  - exists (take 2 (sextets (b0 * 2 ^ 16))), 2%nat.
    split; [reflexivity|]. split; [lia|].
    split; [apply Forall_take, sextets_range; lia|].
    split; [reflexivity|]. split; [simpl; lia|].
    apply decode_group1. unfold latin1. lia.
  - exists (take 3 (sextets (b0 * 2 ^ 16 + b1 * 2 ^ 8))), 1%nat.
    split; [reflexivity|]. split; [lia|].
    split; [apply Forall_take, sextets_range; lia|].
    split; [reflexivity|]. split; [simpl; lia|].
    apply decode_group2; unfold latin1; lia.
  - destruct (IH ltac:(assumption)) as (body & k & Henc & Hk & Hb & Hl & Hl1 & Hd).
    exists (sextets (b0 * 2 ^ 16 + b1 * 2 ^ 8 + b2) ++ body), k.
    repeat split.
    + change (b64_encode (b0 :: b1 :: b2 :: s)) with
        (map b64_char (sextets (b0 * 2 ^ 16 + b1 * 2 ^ 8 + b2)) ++ b64_encode s).
      rewrite Henc, map_app. by rewrite app_assoc.
    + exact Hk.
    + apply Forall_app. split; [apply sextets_range; lia | exact Hb].
    + rewrite length_app. simpl length.
      replace (4 + length body + k)%nat with (length body + k + 1 * 4)%nat by lia.
      rewrite Nat.Div0.mod_add. exact Hl.
    + rewrite length_app. simpl length.
      replace (4 + length body)%nat with (length body + 1 * 4)%nat by lia.
      rewrite Nat.Div0.mod_add. exact Hl1.
    + rewrite decode_group3 by (unfold latin1; lia). by rewrite Hd.
Qed.

(** ** Decoding *)

Lemma filter_no_whitespace l :
  Forall (fun c => is_ascii_whitespace c = false) l ->
  List.filter (fun c => negb (is_ascii_whitespace c)) l = l.
Proof. induction 1 as [|c l Hc _ IH]; simpl; [done|]. by rewrite Hc, IH. Qed.

Lemma strip_padding_pad body k :
  (k <= 2)%nat -> Forall (fun c => c <> 61) body ->
  strip_padding (body ++ replicate k 61) = body.
Proof.
  intros Hk Hb. unfold strip_padding.
  assert (Forall (fun c => c <> 61) (rev body)) as Hr by (apply Forall_rev; exact Hb).
  destruct k as [|[|[|k]]]; [| | |lia]; simpl replicate; rewrite ?app_nil_r;
    rewrite ?rev_app_distr; simpl.
  - destruct (rev body) as [|x [|y r]] eqn:E; [done| |]; forall_inv.
    + by rewrite (proj2 (Z.eqb_neq x 61)).
    + by rewrite (proj2 (Z.eqb_neq x 61)).
  - destruct (rev body) as [|y r] eqn:E; forall_inv.
    + apply (f_equal (@rev Z)) in E. rewrite rev_involutive in E. by subst.
    + rewrite (proj2 (Z.eqb_neq y 61)) by done. simpl.
      apply (f_equal (@rev Z)) in E. rewrite rev_involutive in E. by subst.
  - by rewrite rev_involutive.
Qed.

Lemma strip_padding_suffix s : exists j, s = strip_padding s ++ replicate j 61.
Proof.
  unfold strip_padding.
  destruct (rev s) as [|x [|y r]] eqn:E;
    apply (f_equal (@rev Z)) in E; rewrite rev_involutive in E; subst s; simpl.
  - by exists 0%nat.
  - destruct (Z.eqb_spec x 61) as [->|]; [by exists 1%nat | by exists 0%nat].
  - destruct (Z.eqb_spec x 61) as [->|]; destruct (Z.eqb_spec y 61) as [->|]; simpl.
    + exists 2%nat. by rewrite <- app_assoc.
    + by exists 1%nat.
    + exists 0%nat. by rewrite app_nil_r.
    + exists 0%nat. by rewrite app_nil_r.
Qed.

Lemma b64_values_None l c :
  c ∈ l -> b64_value c = None -> b64_values l = None.
Proof.
  induction l as [|c' l IH]; intros Hin Hc; [by apply not_elem_of_nil in Hin|].
  apply elem_of_cons in Hin as [->|Hin]; simpl.
  - by rewrite Hc.
  - rewrite (IH Hin Hc). by destruct (b64_value c').
Qed.

Lemma b64_value_range c v : b64_value c = Some v -> 0 <= v < 64.
Proof.
  unfold b64_value. intros Hc.
  repeat match type of Hc with
  | context [if ?b then _ else _] => destruct b eqn:?
  end; simplify_eq; rewrite ?andb_true_iff, ?Z.leb_le, ?Z.eqb_eq in *; lia.
Qed.

Lemma b64_values_range s vs :
  b64_values s = Some vs -> Forall (fun v => 0 <= v < 64) vs.
Proof.
  revert vs. induction s as [|c s IH]; intros vs Hs; simpl in Hs; [by simplify_eq|].
  destruct (b64_value c) eqn:Hc, (b64_values s) eqn:Hs'; simplify_eq.
  constructor; [eapply b64_value_range; eauto | by apply IH].
Qed.

Lemma b64_decode_values_latin1 vs :
  Forall (fun v => 0 <= v < 64) vs -> Forall latin1 (b64_decode_values vs).
Proof.
  induction vs as [|a|a b|a b c|a b c d vs IH] using list_chunk4_ind; intros Hvs;
    forall_inv; unfold latin1 in *; simpl; repeat constructor; try zdivmod.
  by apply IH.
Qed.

Lemma atob_b64_encode s : Forall latin1 s -> atob (b64_encode s) = Some s.
Proof.
  intros Hs.
  destruct (b64_encode_shape s Hs) as (body & k & Henc & Hk & Hb & Hl & Hl1 & Hd).
  assert (Forall (fun c => c <> 61 /\ is_ascii_whitespace c = false)
            (map b64_char body)) as Hchars.
  { apply Forall_map. eapply Forall_impl; [exact Hb|]. apply b64_char_spec. }
  unfold atob. rewrite Henc, filter_no_whitespace.
  2:{ apply Forall_app. split.
      - eapply Forall_impl; [exact Hchars|]. by intros ? [? ?].
      - apply Forall_replicate. reflexivity. }
  rewrite length_app, length_map, length_replicate.
  rewrite (proj2 (Nat.eqb_eq _ _) Hl).
  rewrite strip_padding_pad by
    (done || (eapply Forall_impl; [exact Hchars|]; intros ? [? ?]; done)).
  rewrite length_map, (proj2 (Nat.eqb_neq _ _) Hl1), b64_values_map_char by exact Hb.
  by rewrite Hd.
Qed.

(** ** Properties of the platform functions *)

(** What [btoa] produces, [atob] decodes back to the same string:
    [encrypt]'s last step loses nothing for [decrypt]. *)
Theorem btoa_atob_roundtrip (s e : jsstr) :
  btoa s = Some e -> atob e = Some s.
Proof.
  unfold btoa. case_decide as Hs; intros He; simplify_eq.
  by apply atob_b64_encode.
Qed.

(** [atob] throws on any string holding a code unit above 255, whatever
    else it holds. *)
Theorem atob_rejects_non_latin1 (s : jsstr) (c : Z) :
  c ∈ s -> 256 <= c -> atob s = None.
Proof.
  intros Hin Hc. unfold atob.
  set (s1 := List.filter _ s).
  assert (c ∈ s1) as Hin1.
  { apply list_elem_of_In, filter_In. split; [by apply list_elem_of_In|].
    unfold is_ascii_whitespace.
    repeat rewrite (proj2 (Z.eqb_neq c _)) by lia. reflexivity. }
  set (s2 := if Nat.eqb _ 0 then strip_padding s1 else s1).
  assert (c ∈ s2) as Hin2.
  { subst s2. destruct (Nat.eqb _ 0); [|exact Hin1].
    destruct (strip_padding_suffix s1) as [j Hj]. rewrite Hj in Hin1.
    apply elem_of_app in Hin1 as [|Hr]; [done|].
    apply elem_of_replicate in Hr as [-> _]. lia. }
  destruct (Nat.eqb _ 1); [done|].
  rewrite (b64_values_None s2 c Hin2); [done|].
  unfold b64_value.
  repeat rewrite (proj2 (Z.eqb_neq c _)) by lia.
  rewrite (proj2 (Z.leb_gt c 90)), (proj2 (Z.leb_gt c 122)), (proj2 (Z.leb_gt c 57))
    by lia.
  by rewrite !andb_false_r.
Qed.

(** Whatever [atob] returns is a byte string. *)
Theorem atob_output_latin1 (s bs : jsstr) :
  atob s = Some bs -> Forall latin1 bs.
Proof.
  unfold atob. intros H.
  destruct (Nat.eqb _ 1); [done|].
  destruct (b64_values _) as [vs|] eqn:Hv; [|done]. injection H as <-.
  eapply b64_decode_values_latin1, b64_values_range. exact Hv.
Qed.

Lemma b64_encode_nonempty s : s <> [] -> b64_encode s <> [].
Proof. destruct s as [|a [|b [|c l]]]; simpl; congruence. Qed.

(** Every group of three code units, and the final one or two with their
    padding, gives four characters: [4 * ceil(n / 3)] in all. *)
Lemma length_b64_encode s : length (b64_encode s) = (4 * ((length s + 2) / 3))%nat.
Proof.
  induction s as [| | |a b c l IH] using list_chunk3_ind; try reflexivity.
  cbn [b64_encode length]. rewrite length_app, length_map, IH.
  replace (S (S (S (length l))) + 2)%nat with (1 * 3 + (length l + 2))%nat by lia.
  rewrite Nat.div_add_l by lia. cbn [sextets length]. lia.
Qed.

Lemma b64_char_ascii v : 0 <= v < 64 -> 0 <= b64_char v < 128.
Proof.
  intros Hv. unfold b64_char.
  destruct (Z.ltb_spec v 26); [lia|]. destruct (Z.ltb_spec v 52); [lia|].
  destruct (Z.ltb_spec v 62); [lia|]. destruct (Z.eqb_spec v 62); lia.
Qed.

Lemma b64_encode_ascii s :
  Forall latin1 s -> Forall (fun c => 0 <= c < 128) (b64_encode s).
Proof.
  intros Hs. destruct (b64_encode_shape s Hs) as (body & k & -> & _ & Hb & _).
  apply Forall_app. split.
  - apply Forall_map. eapply Forall_impl; [exact Hb|]. apply b64_char_ascii.
  - apply Forall_replicate. lia.
Qed.

(** What [btoa] returns is plain ASCII: a token of the base-64 alphabet
    and '='. *)
Theorem btoa_ascii (s e : jsstr) :
  btoa s = Some e -> Forall (fun c => 0 <= c < 128) e.
Proof.
  unfold btoa. case_decide as Hs; intros He; simplify_eq.
  by apply b64_encode_ascii.
Qed.

(** ** The model against values of the real functions *)

Example btoa_Acme : btoa (js:"Acme") = Some (js:"QWNtZQ==").
Proof. js_eval. Qed.

Example atob_padding_and_whitespace :
  atob (js:" QW Nt ZQ = = ") = Some (js:"Acme") /\ atob (js:"QWNtZQ") = Some (js:"Acme").
Proof. split; reflexivity. Qed.

Example atob_failures : atob (js:"QWNtZ") = None /\ atob (js:"QW*t") = None.
Proof. split; reflexivity. Qed.

End Base64.
