(* ===== verification/Key.v ===== *)
(** * Session key derivation: [generateEncryptionKey]

    The constructor of [FinanceFlowCrypto] stores
    ["FinanceFlow2024SecureApp" + Date.now().toString().slice(-6)]: a fixed
    seed followed by the last six decimal digits of the millisecond clock.
    The clock reading is the parameter [now]. *)

From stdpp Require Import base list strings.
From Stdlib Require Import ZArith Lia.
From S2P Require Import Prelude JsNumber JsValue.

Open Scope Z_scope.
Open Scope js_scope.

Module Key.
Import NumberToString.

Definition seed : jsstr := js:"FinanceFlow2024SecureApp".

(** [str.slice(-n)]: start at [max(len - n, 0)]. *)
Definition slice_neg (n : nat) (s : jsstr) : jsstr := drop (length s - n) s.

Definition generateEncryptionKey (now : Z) : jsstr :=
  seed ++ slice_neg 6 (number_to_string now).

(** The key of a clock reading with at least six digits ends with the
    fixed-width last six digits of the reading. *)
Lemma generateEncryptionKey_digits now :
  10 ^ 5 <= now ->
  generateEncryptionKey now = seed ++ map digit_char (rev (fixed_rev 10 6 now)).
Proof.
  intros Hnow. unfold generateEncryptionKey, slice_neg, number_to_string.
  rewrite number_to_string_radix_nonneg by lia.
  set (l := radix_rev 10 (digit_fuel now) now).
  assert (Hfuel : (6 <= digit_fuel now)%nat).
  { unfold digit_fuel.
    assert (16 <= Z.log2 now).
    { rewrite <- (Z.log2_pow2 16) by lia. apply Z.log2_le_mono. lia. }
    lia. }
  assert (Htake : take 6 l = fixed_rev 10 6 now).
  { apply take_radix_rev; [lia | lia | simpl; lia]. }
  assert (Hlen : (6 <= length l)%nat).
  { assert (length (take 6 l) = 6%nat) as E by (rewrite Htake; apply length_fixed_rev).
    rewrite length_take in E. lia. }
  rewrite length_map, skipn_map, length_rev, skipn_rev.
  f_equal. f_equal. rewrite <- Htake. f_equal. f_equal. lia.
Qed.

Lemma generateEncryptionKey_ascii now :
  Forall (fun c => 0 <= c < 128) (generateEncryptionKey now).
Proof.
  unfold generateEncryptionKey, slice_neg. apply Forall_app. split.
  { unfold seed. repeat constructor; lia. }
  apply Forall_drop. unfold number_to_string, number_to_string_radix.
  apply Forall_app. split; [destruct (now <? 0); repeat constructor; lia|].
  apply Forall_map. unfold radix_digits. apply Forall_rev.
  pose proof (radix_rev_digits 10 ltac:(lia) (digit_fuel (Z.abs now)) (Z.abs now)
                ltac:(lia)) as Hds.
  eapply Forall_impl; [exact Hds|].
  intros d Hd. cbv beta in Hd |- *. unfold digit_char. destruct (Z.ltb_spec d 10); lia.
Qed.

Lemma generateEncryptionKey_length now :
  10 ^ 5 <= now -> length (generateEncryptionKey now) = 30%nat.
Proof.
  intros Hnow. rewrite generateEncryptionKey_digits by exact Hnow.
  by rewrite length_app, length_map, length_rev, length_fixed_rev.
Qed.

(** C8. Two sessions whose clocks read at least 100000 ms
    derive the same key exactly when their readings agree modulo 10^6:
    there are only a million keys, and a session opened at another
    residue cannot read what this one wrote. *)
Theorem generateEncryptionKey_eq_iff (t1 t2 : Z) :
  10 ^ 5 <= t1 -> 10 ^ 5 <= t2 ->
  generateEncryptionKey t1 = generateEncryptionKey t2 <-> t1 mod 10 ^ 6 = t2 mod 10 ^ 6.
Proof.
  intros H1 H2. rewrite !generateEncryptionKey_digits by assumption.
  change (10 ^ 6) with (10 ^ Z.of_nat 6).
  rewrite <- (fixed_rev_eq_iff 10 ltac:(lia) 6). split; [|by intros ->].
  intros E. apply app_inv_head in E.
  apply (map_digit_char_inj 10) in E;
    [| lia | apply Forall_rev, fixed_rev_digits; lia
     | apply Forall_rev, fixed_rev_digits; lia].
  apply (f_equal (@rev Z)) in E. by rewrite !rev_involutive in E.
Qed.

Lemma generateEncryptionKey_eq_iff_witness :
  10 ^ 5 <= 1731000123456 /\ 10 ^ 5 <= 1731999123456 /\
  generateEncryptionKey 1731000123456 = generateEncryptionKey 1731999123456.
Proof.
  split; [lia|]. split; [lia|].
  apply (generateEncryptionKey_eq_iff 1731000123456 1731999123456); [lia | lia |].
  reflexivity.
Defined.

End Key.
