(* ===== verification/FieldCipher.v ===== *)
(** * What the record transform needs from the cipher

    [encryptApplicationData] and [decryptApplicationData] call
    [this.encrypt] and [this.decrypt]; they rely on nothing else of the
    class.  [FieldCipher] is that pair of methods, [FieldCipherLaws] what
    the record-level theorems assume of them.  [XorCipher] provides the
    instance of the source and proves the laws. *)

From stdpp Require Import base list strings.
From Stdlib Require Import ZArith.
From S2P Require Import Prelude JsValue.

Class FieldCipher := {
  fc_encrypt : jsstr -> jsstr;
  fc_decrypt : jsval -> jsval
}.

Class FieldCipherLaws `{FieldCipher} := {
  (** a non-empty string is never sealed to the empty string *)
  fc_encrypt_nonempty s : wf_str s -> s <> [] -> fc_encrypt s <> [];
  fc_encrypt_wf s : wf_str s -> wf_str (fc_encrypt s);
  (** opening a sealed non-empty string gives it back *)
  fc_decrypt_encrypt s : wf_str s -> s <> [] -> fc_decrypt (JStr (fc_encrypt s)) = JStr s;
  fc_decrypt_wf v : wf_val v -> wf_val (fc_decrypt v)
}.
