(* ===== verification/XorCipher.v ===== *)
(** * The cipher of [FinanceFlowCrypto]: [encrypt] and [decrypt]

    An object of the class holds one field, [key], set once by the
    constructor from the clock.  [encrypt] XORs each code unit of the text
    with the key code unit at the same index modulo the key length and
    passes the result to [btoa]; an exception (a code unit above 255 after
    the XOR) is caught and the text is returned unchanged.  [decrypt] runs
    [atob] on its argument and the same XOR loop; an exception returns the
    argument unchanged.  Both return falsy arguments as they are. *)

From stdpp Require Import base list strings.
From Stdlib Require Import ZArith Lia.
From S2P Require Import Prelude JsNumber JsValue Base64 Key FieldCipher.

Open Scope Z_scope.
Open Scope js_scope.

Module FinanceFlowCrypto.
Import Base64.

(** The object: its only state is the key. *)
Record crypto := mk_crypto { key : jsstr }.

(** [constructor() { this.key = this.generateEncryptionKey(); }] *)
Definition constructor (now : Z) : crypto := mk_crypto (Key.generateEncryptionKey now).

(** [key.charCodeAt(i % key.length)]; for an empty key the index is NaN,
    [charCodeAt] gives NaN and the XOR reads it as 0, which [nth]'s
    default reproduces. *)
Definition key_code (key : jsstr) (i : nat) : Z := nth (i mod length key) key 0.

(** [String.fromCharCode(charCode ^ keyCode)] *)
Definition xor_char (key : jsstr) (i : nat) (c : Z) : Z :=
  from_char_code (Int32.xor32 c (key_code key i)).

(** The loop of [encrypt] and of [decrypt]: [acc] is the string built by
    [+=], [i] the loop index. *)
Fixpoint xor_loop (key : jsstr) (i : nat) (text acc : jsstr) : jsstr :=
  match text with
  | [] => acc
  | c :: rest => xor_loop key (S i) rest (acc ++ [xor_char key i c])
  end.

Definition encrypt (this : crypto) (text : jsstr) : jsstr :=
  if decide (text = []) then text
  else match btoa (xor_loop (key this) 0 text []) with
       | Some encoded => encoded
       | None => text
       end.

Definition decrypt (this : crypto) (encryptedText : jsval) : jsval :=
  if negb (truthy encryptedText) then encryptedText
  else match atob (to_string encryptedText) with
       | Some encrypted => JStr (xor_loop (key this) 0 encrypted [])
       | None => encryptedText
       end.

(** The reference: the code unit at index [i] is XORed with the key code
    unit at index [i]. *)
Definition xor_spec (key text : jsstr) : jsstr := imap (xor_char key) text.

(** ** The loop and the reference *)

Lemma xor_loop_acc key i text acc :
  xor_loop key i text acc = acc ++ imap (fun j c => xor_char key (i + j) c) text.
Proof.
  revert i acc. induction text as [|c text IH]; intros i acc; simpl.
  - by rewrite app_nil_r.
  - rewrite IH, <- app_assoc. simpl. f_equal. f_equal; [f_equal; lia|].
    apply imap_ext. intros j x _. simpl. f_equal. lia.
Qed.

Lemma xor_loop_0 key text : xor_loop key 0 text [] = xor_spec key text.
Proof. rewrite xor_loop_acc. simpl. reflexivity. Qed.

Lemma key_code_prop (P : Z -> Prop) key i :
  P 0 -> Forall P key -> P (key_code key i).
Proof.
  intros H0 Hk. unfold key_code.
  destruct (decide (i mod length key < length key)%nat) as [Hlt|Hge].
  - apply Forall_forall with (x := nth (i mod length key) key 0) in Hk; [done|].
    by apply list_elem_of_In, nth_In.
  - by rewrite nth_overflow by lia.
Qed.

Lemma xor_char_code_unit key i c : code_unit (xor_char key i c).
Proof. unfold xor_char, from_char_code, code_unit. apply Z.mod_pos_bound. lia. Qed.

Section WithKey.
Context (k : jsstr) (Hk : Forall latin1 k).

Lemma key_code_latin1 i : latin1 (key_code k i).
Proof. apply key_code_prop; [unfold latin1; lia | exact Hk]. Qed.

Lemma xor_char_lxor i c : code_unit c -> xor_char k i c = Z.lxor c (key_code k i).
Proof.
  intros Hc. pose proof (key_code_latin1 i) as Hki. unfold code_unit, latin1 in *.
  unfold xor_char, from_char_code. rewrite Int32.xor32_nonneg by lia.
  apply Z.mod_small, Z_lxor_lt_pow2; lia.
Qed.

Lemma xor_char_involutive i c : code_unit c -> xor_char k i (xor_char k i c) = c.
Proof.
  intros Hc. rewrite (xor_char_lxor i (xor_char k i c)) by apply xor_char_code_unit.
  rewrite xor_char_lxor by exact Hc. by autorewrite with loanapp_rw.
Qed.

Lemma xor_char_latin1_iff i c : code_unit c -> latin1 (xor_char k i c) <-> latin1 c.
Proof.
  intros Hc. pose proof (key_code_latin1 i) as Hki.
  rewrite xor_char_lxor by exact Hc. unfold code_unit, latin1 in *.
  assert (0 <= Z.lxor c (key_code k i)) by (apply Z.lxor_nonneg; lia).
  split; intros Hl.
  - destruct (Z_lt_le_dec c (2 ^ 8)); [lia|].
    pose proof (Z_lxor_ge_pow2 c (key_code k i) 8). lia.
  - pose proof (Z_lxor_lt_pow2 c (key_code k i) 8). lia.
Qed.

End WithKey.

Lemma xor_spec_wf k text : wf_str (xor_spec k text).
Proof.
  apply Forall_lookup. intros i x Hx. apply list_lookup_imap_Some in Hx as (c & _ & ->).
  apply xor_char_code_unit.
Qed.

Lemma xor_loop_0_wf k text : wf_str (xor_loop k 0 text []).
Proof. rewrite xor_loop_0. apply xor_spec_wf. Qed.

Lemma length_xor_spec k text : length (xor_spec k text) = length text.
Proof. apply length_imap. Qed.

Section WithLatin1Key.
Context (k : jsstr) (Hk : Forall latin1 k).

(** The XOR with the key is its own inverse on well-formed strings. *)
Lemma xor_spec_involutive text : wf_str text -> xor_spec k (xor_spec k text) = text.
Proof.
  intros Hw. apply list_eq. intros i. unfold xor_spec. rewrite !list_lookup_imap.
  destruct (text !! i) as [c|] eqn:E; simpl; [|done].
  f_equal. apply xor_char_involutive; [exact Hk|]. eapply Forall_lookup_1; eauto.
Qed.

(** A Latin-1 key keeps Latin-1 text Latin-1 and other text other. *)
Lemma xor_spec_latin1_iff text :
  wf_str text -> Forall latin1 (xor_spec k text) <-> Forall latin1 text.
Proof.
  intros Hw. rewrite !Forall_lookup. split.
  - intros H i c Hc. apply (xor_char_latin1_iff k Hk i c); [eapply Forall_lookup_1; eauto|].
    apply (H i). unfold xor_spec. by rewrite list_lookup_imap, Hc.
  - intros H i x Hx. unfold xor_spec in Hx.
    apply list_lookup_imap_Some in Hx as (c & Hc & ->).
    apply xor_char_latin1_iff; [exact Hk | eapply Forall_lookup_1; eauto | eauto].
Qed.

End WithLatin1Key.

(** ** [encrypt] and [decrypt] on every branch *)

Section WithObject.
Context (this : crypto) (Hkey : Forall latin1 (key this)).

Lemma encrypt_latin1 s :
  s <> [] -> wf_str s -> Forall latin1 s -> encrypt this s = b64_encode (xor_spec (key this) s).
Proof.
  intros Hne Hw Hl. unfold encrypt, btoa.
  rewrite decide_False by done. rewrite xor_loop_0.
  rewrite decide_True; [done|]. by apply xor_spec_latin1_iff.
Qed.

(** [btoa] throws on the XORed text and the catch returns the input. *)
Lemma encrypt_not_latin1 s : wf_str s -> ~ Forall latin1 s -> encrypt this s = s.
Proof.
  intros Hw Hl. unfold encrypt, btoa.
  case_decide; [done|]. rewrite xor_loop_0.
  rewrite decide_False; [done|]. by rewrite xor_spec_latin1_iff.
Qed.

Lemma not_latin1_witness s :
  wf_str s -> ~ Forall latin1 s -> exists c, c ∈ s /\ 256 <= c.
Proof.
  intros Hw Hl. apply not_Forall_Exists in Hl; [|apply _].
  apply Exists_exists in Hl as (c & Hin & Hc). exists c. split; [done|].
  apply Forall_forall with (x := c) in Hw; [|done].
  unfold compose, code_unit, latin1 in *. lia.
Qed.

Lemma decrypt_encrypt s :
  wf_str s -> s <> [] -> decrypt this (JStr (encrypt this s)) = JStr s.
Proof.
  intros Hw Hne. destruct (decide (Forall latin1 s)) as [Hl|Hl].
  - rewrite encrypt_latin1 by done. unfold decrypt. simpl.
    rewrite bool_decide_false by (apply b64_encode_nonempty; by rewrite <- length_zero_iff_nil,
      length_xor_spec, length_zero_iff_nil).
    simpl. rewrite atob_b64_encode by (by apply xor_spec_latin1_iff).
    rewrite xor_loop_0. by rewrite xor_spec_involutive.
  - rewrite encrypt_not_latin1 by done. unfold decrypt. simpl.
    rewrite bool_decide_false by done. simpl.
    destruct (not_latin1_witness s Hw Hl) as (c & Hin & Hc).
    by rewrite (atob_rejects_non_latin1 s c Hin Hc).
Qed.

End WithObject.

(** ** The class instance of the source *)

#[export] Instance xor_field_cipher (this : crypto) : FieldCipher :=
  {| fc_encrypt := encrypt this; fc_decrypt := decrypt this |}.

Lemma xor_field_cipher_laws (this : crypto) :
  Forall latin1 (key this) -> @FieldCipherLaws (xor_field_cipher this).
Proof.
  intros Hkey. split; simpl.
  - intros s Hw Hne. destruct (decide (Forall latin1 s)).
    + rewrite encrypt_latin1 by done. apply b64_encode_nonempty.
      by rewrite <- length_zero_iff_nil, length_xor_spec, length_zero_iff_nil.
    + by rewrite encrypt_not_latin1.
  - intros s Hw. destruct (decide (s = [])) as [->|Hne].
    { unfold encrypt. by rewrite decide_True. }
    destruct (decide (Forall latin1 s)).
    + rewrite encrypt_latin1 by done.
      eapply Forall_impl; [apply b64_encode_ascii|].
      * by apply xor_spec_latin1_iff.
      * unfold code_unit. lia.
    + by rewrite encrypt_not_latin1.
  - by apply decrypt_encrypt.
  - intros v Hv. unfold decrypt.
    destruct (truthy v); [|done]. simpl.
    destruct (atob _); [exact (xor_loop_0_wf _ _) | done].
Qed.

Lemma constructor_key_latin1 now : Forall latin1 (key (constructor now)).
Proof.
  eapply Forall_impl; [apply Key.generateEncryptionKey_ascii|].
  unfold latin1. lia.
Qed.

#[export] Instance constructor_laws (now : Z) :
  @FieldCipherLaws (xor_field_cipher (constructor now)) :=
  xor_field_cipher_laws (constructor now) (constructor_key_latin1 now).

(** ** Two sessions *)

Lemma decrypt_encrypt_cross (this1 this2 : crypto) (s : jsstr) :
  Forall latin1 (key this1) -> Forall latin1 (key this2) ->
  Forall latin1 s -> s <> [] ->
  decrypt this2 (JStr (encrypt this1 s)) = JStr (xor_spec (key this2) (xor_spec (key this1) s)).
Proof.
  intros Hk1 Hk2 Hl Hne.
  assert (wf_str s) as Hw.
  { eapply Forall_impl; [exact Hl|]. unfold latin1, code_unit. lia. }
  rewrite encrypt_latin1 by done.
  unfold decrypt. simpl.
  rewrite bool_decide_false by (apply b64_encode_nonempty;
    by rewrite <- length_zero_iff_nil, length_xor_spec, length_zero_iff_nil).
  simpl. rewrite atob_b64_encode by (by apply xor_spec_latin1_iff).
  by rewrite xor_loop_0.
Qed.

Lemma xor_spec_keys_agree (k1 k2 s : jsstr) :
  Forall latin1 k1 -> wf_str s ->
  (forall i, (i < length s)%nat -> key_code k1 i = key_code k2 i) ->
  xor_spec k2 (xor_spec k1 s) = s.
Proof.
  intros Hk1 Hw Hagree. apply list_eq. intros i. unfold xor_spec.
  rewrite !list_lookup_imap.
  destruct (s !! i) as [c|] eqn:E; simpl; [|done].
  f_equal. pose proof (lookup_lt_Some _ _ _ E) as Hi.
  unfold xor_char at 1. rewrite <- (Hagree i Hi). fold (xor_char k1 i (xor_char k1 i c)).
  apply xor_char_involutive; [exact Hk1|]. eapply Forall_lookup_1; eauto.
Qed.

(** The first 24 key code units are the seed, whatever the clock read. *)
Lemma key_code_constructor_seed now i :
  10 ^ 5 <= now -> (i < 24)%nat -> key_code (key (constructor now)) i = nth i Key.seed 0.
Proof.
  intros Hnow Hi. unfold key_code. simpl key.
  rewrite Key.generateEncryptionKey_length, Nat.mod_small by (done || lia).
  unfold Key.generateEncryptionKey. apply app_nth1. done.
Qed.

(** The session part of the key starts at index 24. *)
Lemma short_field_cross_session (t1 t2 : Z) (s : jsstr) :
  10 ^ 5 <= t1 -> 10 ^ 5 <= t2 -> wf_str s -> s <> [] -> (length s <= 24)%nat ->
  decrypt (constructor t2) (JStr (encrypt (constructor t1) s)) = JStr s.
Proof.
  intros H1 H2 Hw Hne Hlen. destruct (decide (Forall latin1 s)) as [Hl|Hl].
  - rewrite decrypt_encrypt_cross by (apply constructor_key_latin1 || done).
    f_equal. apply xor_spec_keys_agree; [apply constructor_key_latin1 | exact Hw |].
    intros i Hi. rewrite !key_code_constructor_seed by (done || lia). reflexivity.
  - rewrite encrypt_not_latin1 by (apply constructor_key_latin1 || done).
    unfold decrypt. simpl. rewrite bool_decide_false by done. simpl.
    destruct (not_latin1_witness s Hw Hl) as (c & Hin & Hc).
    by rewrite (atob_rejects_non_latin1 s c Hin Hc).
Qed.

(** XOR of a mask into the ciphertext passes through the cipher. *)
Lemma xor_spec_mask (k a m : jsstr) :
  Forall latin1 k -> wf_str a -> Forall latin1 m ->
  xor_spec k (zip_with Z.lxor (xor_spec k a) m) = zip_with Z.lxor a m.
Proof.
  intros Hk Ha Hm. apply list_eq. intros i. unfold xor_spec.
  rewrite list_lookup_imap, !lookup_zip_with, list_lookup_imap.
  destruct (a !! i) as [c|] eqn:Ec; simpl; [|done].
  destruct (m !! i) as [z|] eqn:Ez; simpl; [|done]. f_equal.
  pose proof (Forall_lookup_1 _ _ _ _ Ha Ec) as Hc.
  pose proof (Forall_lookup_1 _ _ _ _ Hm Ez) as Hz.
  pose proof (key_code_latin1 k Hk i) as Hki. unfold code_unit, latin1 in *.
  rewrite (xor_char_lxor k Hk i c) by (unfold code_unit; lia).
  rewrite (xor_char_lxor k Hk i) by
    (unfold code_unit; apply Z_lxor_lt_pow2; try apply Z_lxor_lt_pow2; lia).
  rewrite !Z.lxor_assoc, (Z.lxor_comm z), <- (Z.lxor_assoc (key_code k i)).
  by rewrite Z.lxor_nilpotent, Z.lxor_0_l.
Qed.

(** ** Properties of the session cipher *)

Lemma latin1_wf_str s : Forall latin1 s -> wf_str s.
Proof. intros Hl. eapply Forall_impl; [exact Hl|]. unfold latin1, code_unit. lia. Qed.

(** A session encrypts Latin-1 text, the empty string included, by XOR
    then base 64. *)
Lemma encrypt_constructor_latin1 now s :
  Forall latin1 s -> encrypt (constructor now) s = b64_encode (xor_spec (key (constructor now)) s).
Proof.
  intros Hl. destruct (decide (s = [])) as [->|Hne].
  { unfold encrypt. by rewrite decide_True. }
  apply encrypt_latin1; [apply constructor_key_latin1 | done | by apply latin1_wf_str | done].
Qed.

(** C13. The accumulating loop of [encrypt]/[decrypt] computes, at
    each index [i], the code unit [text[i]] XORed with
    [key[i mod key.length]] and reduced by [fromCharCode]. *)
Theorem xor_loop_lookup (k text : jsstr) (i : nat) :
  xor_loop k 0 text [] !! i =
  (fun c => from_char_code (Int32.xor32 c (nth (i mod length k) k 0))) <$> text !! i.
Proof. rewrite xor_loop_0. unfold xor_spec. apply list_lookup_imap. Qed.

(** C2. Within one session, [decrypt] undoes [encrypt]
    on every non-empty string. *)
Theorem session_decrypt_encrypt (now : Z) (s : jsstr) :
  wf_str s -> s <> [] ->
  decrypt (constructor now) (JStr (encrypt (constructor now) s)) = JStr s.
Proof. intros Hw Hne. apply decrypt_encrypt; [apply constructor_key_latin1 | done | done]. Qed.

(** C3. A string holding any code unit above 255 (a
    rupee sign, any non-Latin-1 letter) makes [btoa] throw; [encrypt]
    catches it and returns the string unencrypted. *)
Theorem encrypt_keeps_non_latin1_plaintext (now : Z) (s : jsstr) (c : Z) :
  wf_str s -> c ∈ s -> 256 <= c -> encrypt (constructor now) s = s.
Proof.
  intros Hw Hin Hc. apply encrypt_not_latin1; [apply constructor_key_latin1 | done |].
  intros Hl. apply Forall_forall with (x := c) in Hl; [|done]. unfold latin1 in Hl. lia.
Qed.

(** C4. A value sealed in one session and opened in another is
    decoded without any error: [decrypt] returns the text XORed with both
    keys, which is the plaintext only when the keys agree on it. *)
Theorem decrypt_other_session (t1 t2 : Z) (s : jsstr) :
  Forall latin1 s -> s <> [] ->
  decrypt (constructor t2) (JStr (encrypt (constructor t1) s)) =
  JStr (xor_spec (key (constructor t2)) (xor_spec (key (constructor t1)) s)).
Proof.
  intros Hl Hne. apply decrypt_encrypt_cross; [apply constructor_key_latin1 ..| done | done].
Qed.

(** C5. The session part of the key starts at index 24: a
    field of at most 24 code units sealed in any session is opened by
    any other session (and so by anyone holding the public seed). *)
Theorem short_field_readable_in_any_session (t1 t2 : Z) (s : jsstr) :
  10 ^ 5 <= t1 -> 10 ^ 5 <= t2 -> wf_str s -> s <> [] -> (length s <= 24)%nat ->
  decrypt (constructor t2) (JStr (encrypt (constructor t1) s)) = JStr s.
Proof. intros. by apply short_field_cross_session. Qed.

(** C17. A Latin-1 field value is stored as plain ASCII: the
    base-64 alphabet and '='. *)
Theorem encrypt_output_ascii (now : Z) (s : jsstr) :
  Forall latin1 s -> Forall (fun c => 0 <= c < 128) (encrypt (constructor now) s).
Proof.
  intros Hl. rewrite encrypt_constructor_latin1 by done.
  apply b64_encode_ascii. apply xor_spec_latin1_iff; [apply constructor_key_latin1|..|done].
  by apply latin1_wf_str.
Qed.

(** C18. A Latin-1 field value of [n] code units is stored as
    exactly [4 * ceil(n / 3)] characters (the empty string as itself): the
    stored value reveals the length of the plaintext up to rounding. *)
Theorem encrypt_length (now : Z) (s : jsstr) :
  Forall latin1 s -> length (encrypt (constructor now) s) = (4 * ((length s + 2) / 3))%nat.
Proof.
  intros Hl. rewrite encrypt_constructor_latin1 by done.
  by rewrite length_b64_encode, length_xor_spec.
Qed.

(** C12. [decrypt] of a value whose text holds a code unit
    above 255 makes [atob] throw; the catch returns the value unchanged,
    indistinguishable from a successful decryption. *)
Theorem decrypt_keeps_undecodable (this : crypto) (v : jsval) (c : Z) :
  c ∈ to_string v -> 256 <= c -> decrypt this v = v.
Proof.
  intros Hin Hc. unfold decrypt.
  destruct (truthy v); [|done]. simpl.
  by rewrite (atob_rejects_non_latin1 (to_string v) c Hin Hc).
Qed.

(** C7. Tampering with a stored value is not detected: XORing a mask
    into the decoded ciphertext and re-encoding it makes [decrypt] return
    the plaintext XORed with the same mask, with no error. *)
Theorem ciphertext_tampering_undetected (now : Z) (s m x t : jsstr) :
  Forall latin1 s -> s <> [] -> Forall latin1 m -> length m = length s ->
  atob (encrypt (constructor now) s) = Some x ->
  btoa (zip_with Z.lxor x m) = Some t ->
  decrypt (constructor now) (JStr t) = JStr (zip_with Z.lxor s m).
Proof.
  intros Hs Hne Hm Hlen Hx Ht.
  assert (wf_str s) as Hw.
  { eapply Forall_impl; [exact Hs|]. unfold latin1, code_unit. lia. }
  pose proof (constructor_key_latin1 now) as Hk.
  rewrite encrypt_latin1, atob_b64_encode in Hx by (done || by apply xor_spec_latin1_iff).
  injection Hx as <-.
  unfold btoa in Ht. case_decide as Hl; [|discriminate]. injection Ht as <-.
  unfold decrypt. simpl.
  rewrite bool_decide_false.
  2:{ apply b64_encode_nonempty. rewrite <- length_zero_iff_nil, length_zip_with,
        length_xor_spec, Hlen, Nat.min_id. by rewrite length_zero_iff_nil. }
  simpl. rewrite atob_b64_encode by exact Hl.
  by rewrite xor_loop_0, xor_spec_mask.
Qed.

(** ** Witnesses *)

Lemma session_decrypt_encrypt_witness :
  wf_str (js:"Acme Pvt Ltd") /\ js:"Acme Pvt Ltd" <> [] /\
  decrypt (constructor 1731000123456)
    (JStr (encrypt (constructor 1731000123456) (js:"Acme Pvt Ltd"))) = JStr (js:"Acme Pvt Ltd").
Proof.
  split; [by_decide|]. split; [discriminate|].
  apply session_decrypt_encrypt; [by_decide | discriminate].
Defined.

(** "Acme ₹": the rupee sign is U+20B9. *)
Lemma encrypt_keeps_non_latin1_plaintext_witness :
  wf_str (js:"Acme " ++ [8377]) /\ 8377 ∈ js:"Acme " ++ [8377] /\
  encrypt (constructor 1731000123456) (js:"Acme " ++ [8377]) = js:"Acme " ++ [8377].
Proof.
  assert (8377 ∈ js:"Acme " ++ [8377]) as Hin by (apply elem_of_app; right; by left).
  split; [by_decide|]. split; [exact Hin|].
  apply (encrypt_keeps_non_latin1_plaintext _ _ 8377); [by_decide | exact Hin | lia].
Defined.

(** A PAN sealed at one clock reading is read back at another. *)
Lemma short_field_readable_in_any_session_witness :
  wf_str (js:"ABCDE1234F") /\ (length (js:"ABCDE1234F") <= 24)%nat /\
  decrypt (constructor 1731000999999)
    (JStr (encrypt (constructor 1731000123456) (js:"ABCDE1234F"))) = JStr (js:"ABCDE1234F").
Proof.
  split; [by_decide|]. split; [simpl; lia|].
  apply short_field_readable_in_any_session; [lia | lia | by_decide | discriminate | simpl; lia].
Defined.

(** Sealed at one clock reading, opened 876543 ms later: the address
    comes back altered from its 25th character on and no error is
    raised. *)
Lemma decrypt_other_session_witness :
  Forall latin1 (js:"221B Baker Street, Mumbai 400001") /\
  decrypt (constructor 1731000999999)
    (JStr (encrypt (constructor 1731000123456) (js:"221B Baker Street, Mumbai 400001"))) =
  JStr (xor_spec (key (constructor 1731000999999))
          (xor_spec (key (constructor 1731000123456)) (js:"221B Baker Street, Mumbai 400001"))) /\
  decrypt (constructor 1731000999999)
    (JStr (encrypt (constructor 1731000123456) (js:"221B Baker Street, Mumbai 400001"))) <> JStr (js:"221B Baker Street, Mumbai 400001").
Proof.
  split; [by_decide|]. split.
  - apply decrypt_other_session; [by_decide | discriminate].
  - vm_compute. congruence.
Defined.

Lemma encrypt_output_ascii_witness :
  Forall latin1 (js:"Acme Pvt Ltd") /\
  Forall (fun c => 0 <= c < 128) (encrypt (constructor 1731000123456) (js:"Acme Pvt Ltd")).
Proof.
  assert (Forall latin1 (js:"Acme Pvt Ltd")) as Hl by by_decide.
  split; [exact Hl|]. exact (encrypt_output_ascii _ _ Hl).
Defined.

Lemma encrypt_length_witness :
  Forall latin1 (js:"Acme Pvt Ltd") /\
  length (encrypt (constructor 1731000123456) (js:"Acme Pvt Ltd")) = 16%nat.
Proof.
  assert (Forall latin1 (js:"Acme Pvt Ltd")) as Hl by by_decide.
  split; [exact Hl|]. exact (encrypt_length _ _ Hl).
Defined.

Lemma decrypt_keeps_undecodable_witness :
  8377 ∈ to_string (JStr (js:"Acme " ++ [8377])) /\
  decrypt (constructor 1731000123456) (JStr (js:"Acme " ++ [8377])) = JStr (js:"Acme " ++ [8377]).
Proof.
  assert (8377 ∈ to_string (JStr (js:"Acme " ++ [8377]))) as Hin
    by (apply elem_of_app; right; by left).
  split; [exact Hin|]. apply (decrypt_keeps_undecodable _ _ 8377 Hin). lia.
Defined.

(** Flipping the lowest bit of the last byte of a sealed phone number
    turns it into another phone number. *)
Lemma ciphertext_tampering_undetected_witness :
  exists x t,
    Forall latin1 (js:"9999999999") /\ Forall latin1 [0; 0; 0; 0; 0; 0; 0; 0; 0; 1] /\
    atob (encrypt (constructor 1731000123456) (js:"9999999999")) = Some x /\
    btoa (zip_with Z.lxor x [0; 0; 0; 0; 0; 0; 0; 0; 0; 1]) = Some t /\
    decrypt (constructor 1731000123456) (JStr t) = JStr (js:"9999999998").
Proof.
  set (m := [0; 0; 0; 0; 0; 0; 0; 0; 0; 1]).
  set (x := default [] (atob (encrypt (constructor 1731000123456) (js:"9999999999")))).
  assert (Hx : atob (encrypt (constructor 1731000123456) (js:"9999999999")) = Some x)
    by (subst x; vm_compute; reflexivity).
  set (t := default [] (btoa (zip_with Z.lxor x m))).
  assert (Ht : btoa (zip_with Z.lxor x m) = Some t) by (subst t x; vm_compute; reflexivity).
  assert (Hs : Forall latin1 (js:"9999999999")) by by_decide.
  assert (Hm : Forall latin1 m) by by_decide.
  exists x, t. split; [exact Hs|]. split; [exact Hm|]. split; [exact Hx|]. split; [exact Ht|].
  rewrite (ciphertext_tampering_undetected 1731000123456 _ m x t Hs ltac:(discriminate) Hm
             eq_refl Hx Ht).
  reflexivity.
Defined.

End FinanceFlowCrypto.
