(* ===== verification/Hash.v ===== *)
(** * [generateHash]: the 32-bit rolling hash

    [hash = ((hash << 5) - hash) + char; hash = hash & hash;] over the code
    units, then [Math.abs(hash).toString(36)]; the empty string returns the
    number [0] itself.  The operators are the 32-bit ones of [JsNumber]:
    the sum is computed exactly (all operands are below 2^33) and [& hash]
    brings it back to a signed 32-bit integer. *)

From stdpp Require Import base list strings.
From Stdlib Require Import ZArith Lia.
From S2P Require Import Prelude JsNumber JsValue.

Open Scope Z_scope.
Open Scope js_scope.

Module Hash.
Import Int32 NumberToString.

(** One iteration of the loop. *)
Definition hash_step (hash char : Z) : Z :=
  let hash := shl32 hash 5 - hash + char in
  and32 hash hash.

Definition hash_loop (text : jsstr) : Z := fold_left hash_step text 0.

Definition generateHash (text : jsstr) : jsval :=
  if decide (length text = 0%nat) then JNum 0
  else JStr (number_to_string_radix 36 (Z.abs (hash_loop text))).

(** The reference: the polynomial [sum text[i] * 31^(n-1-i)] reduced to
    a signed 32-bit integer. *)
Definition poly31 (text : jsstr) : Z := fold_left (fun acc c => 31 * acc + c) text 0.

Definition base36_char (c : Z) : Prop := 48 <= c <= 57 \/ 97 <= c <= 122.

Lemma hash_step_spec h c : hash_step h c = to_int32 (31 * h + c).
Proof.
  unfold hash_step. autorewrite with loanapp_rw.
  replace (to_int32 (32 * h) - h + c) with (to_int32 (32 * h) + (c - h)) by lia.
  rewrite to_int32_add_mod. f_equal. lia.
Qed.

Lemma hash_fold_spec text a :
  fold_left hash_step text (to_int32 a) =
  to_int32 (fold_left (fun acc c => 31 * acc + c) text a).
Proof.
  revert a. induction text as [|c text IH]; intros a; simpl; [done|].
  rewrite hash_step_spec, <- IH. f_equal.
  apply to_int32_eq_mod. rewrite Zplus_mod, Zmult_mod, to_int32_mod.
  rewrite <- Zmult_mod, <- Zplus_mod. reflexivity.
Qed.

Lemma hash_loop_poly31 text : hash_loop text = to_int32 (poly31 text).
Proof. unfold hash_loop, poly31. change 0 with (to_int32 0) at 1. apply hash_fold_spec. Qed.

Lemma abs_hash_range text : 0 <= Z.abs (hash_loop text) <= 2 ^ 31.
Proof. pose proof (to_int32_range (poly31 text)). rewrite hash_loop_poly31. lia. Qed.

Lemma digit_char_base36 d : 0 <= d < 36 -> base36_char (digit_char d).
Proof. intros Hd. unfold digit_char, base36_char. destruct (Z.ltb_spec d 10); lia. Qed.

(** C14. [generateHash] is the base-36 text of the absolute
    value of the 32-bit truncation of the polynomial hash with factor 31
    (Java's [String.hashCode]), and the number 0 on the empty string. *)
Theorem generateHash_reference (text : jsstr) :
  generateHash text =
  if decide (text = []) then JNum 0
  else JStr (number_to_string_radix 36 (Z.abs (to_int32 (poly31 text)))).
Proof.
  unfold generateHash. rewrite hash_loop_poly31.
  destruct (decide (text = [])) as [->|Hne]; [done|].
  rewrite decide_False; [done|]. by rewrite length_zero_iff_nil.
Qed.

(** C15. The empty string hashes to the number 0; every other
    string to a string of one to six base-36 digits (|hash| <= 2^31 < 36^6). *)
Theorem generateHash_shape (text : jsstr) :
  (text = [] /\ generateHash text = JNum 0) \/
  (text <> [] /\ exists d, generateHash text = JStr d /\
     (1 <= length d <= 6)%nat /\ Forall base36_char d).
Proof.
  destruct (decide (text = [])) as [->|Hne]; [by left|right].
  split; [done|]. unfold generateHash.
  rewrite decide_False by (by rewrite length_zero_iff_nil).
  eexists; split; [reflexivity|].
  pose proof (abs_hash_range text) as Hr.
  rewrite number_to_string_radix_nonneg by lia.
  rewrite length_map, length_rev. split; [split|].
  - unfold digit_fuel. simpl. lia.
  - apply radix_rev_length; [lia | lia | simpl; lia].
  - apply Forall_map, Forall_rev.
    eapply Forall_impl; [apply radix_rev_digits; lia|]. apply digit_char_base36.
Qed.

(** C16. "Aa" and "BB" have the same contribution
    (31 * 65 + 97 = 31 * 66 + 66), so any two texts that differ by
    replacing one by the other hash alike. *)
Theorem generateHash_collision (p q : jsstr) :
  p ++ js:"Aa" ++ q <> p ++ js:"BB" ++ q /\
  generateHash (p ++ js:"Aa" ++ q) = generateHash (p ++ js:"BB" ++ q).
Proof.
  split.
  - intros E. apply app_inv_head in E. discriminate.
  - unfold generateHash. rewrite !length_app. simpl length.
    rewrite !decide_False by lia.
    unfold hash_loop. rewrite !fold_left_app. simpl.
    do 4 f_equal. rewrite !hash_step_spec. apply to_int32_eq_mod.
    rewrite Zplus_mod, Zmult_mod, to_int32_mod, <- Zmult_mod, <- Zplus_mod.
    rewrite (Zplus_mod (31 * to_int32 _)), Zmult_mod, to_int32_mod, <- Zmult_mod, <- Zplus_mod.
    f_equal. lia.
Qed.

End Hash.
