(* ===== verification/RecordTransform.v ===== *)
(** * [encryptApplicationData] and [decryptApplicationData]

    The application record is a JavaScript object: a finite map from
    property names to values ([gmap string jsval]); a property absent from
    the map reads as [undefined].  [{ ...data }] copies it, which on a map
    value is the map itself.  Both methods walk their own copy of the list
    of twenty sensitive field names and rewrite every field whose value is
    truthy; [encryptApplicationData] then sets [_encrypted] and
    [_encryptionVersion].  The section is parameterised by the two methods
    they call, through the [FieldCipher] interface. *)

From stdpp Require Import base list strings gmap.
From Stdlib Require Import ZArith Lia.
From S2P Require Import Prelude JsValue FieldCipher XorCipher.

Open Scope Z_scope.
Open Scope js_scope.

Abbreviation record := (gmap string jsval).

Module RecordTransform.

(** The list of [encryptApplicationData]. *)
Definition sensitiveFields : list string :=
  ["legalName"; "phoneNumber"; "email"; "registeredAddress";
   "director1Name"; "director1Pan"; "director1Aadhaar"; "director1Din"; "director1Address";
   "director2Name"; "director2Pan"; "director2Aadhaar"; "director2Din"; "director2Address";
   "annualRevenue"; "pat"; "capitalEmployed"; "loanAmount"; "purpose"; "collateral"]%string.

(** The second copy of the list, in [decryptApplicationData]. *)
Definition decryptSensitiveFields : list string :=
  ["legalName"; "phoneNumber"; "email"; "registeredAddress";
   "director1Name"; "director1Pan"; "director1Aadhaar"; "director1Din"; "director1Address";
   "director2Name"; "director2Pan"; "director2Aadhaar"; "director2Din"; "director2Address";
   "annualRevenue"; "pat"; "capitalEmployed"; "loanAmount"; "purpose"; "collateral"]%string.

(** The body of both [forEach] callbacks:
    [if (d[field]) { d[field] = f(d[field]); }]. *)
Definition update_if_truthy (f : jsval -> jsval) (d : record) (field : string) : record :=
  match d !! field with
  | Some v => if truthy v then <[field := f v]> d else d
  | None => d
  end.

(** What one field becomes. *)
Definition update_val (f : jsval -> jsval) (o : option jsval) : option jsval :=
  match o with
  | Some v => if truthy v then Some (f v) else Some v
  | None => None
  end.

Section WithCipher.
Context `{FieldCipher}.

Definition encryptApplicationData (data : record) : record :=
  let encryptedData :=
    foldl (update_if_truthy (fun v => JStr (fc_encrypt (to_string v)))) data sensitiveFields in
  <["_encryptionVersion" := JStr (js:"1.0")]> (<["_encrypted" := JBool true]> encryptedData).

Definition decryptApplicationData (data : record) : record :=
  if negb (truthy_opt (data !! "_encrypted")) then data
  else foldl (update_if_truthy fc_decrypt) data decryptSensitiveFields.

End WithCipher.

(** ** The field walk *)

Lemma sensitiveFields_NoDup : NoDup sensitiveFields.
Proof. by_decide. Qed.

Lemma decryptSensitiveFields_eq : decryptSensitiveFields = sensitiveFields.
Proof. reflexivity. Qed.

Lemma update_if_truthy_lookup f d field k :
  update_if_truthy f d field !! k =
  if decide (k = field) then update_val f (d !! k) else d !! k.
Proof.
  unfold update_if_truthy. case_decide as Hk; subst.
  - destruct (d !! field) as [v|] eqn:E; simpl; [|done].
    destruct (truthy v); [by rewrite lookup_insert_eq | done].
  - destruct (d !! field) as [v|]; [|done].
    destruct (truthy v); [by rewrite lookup_insert_ne | done].
Qed.

(** Walking a list without duplicates updates each listed field once and
    leaves the others alone. *)
Lemma foldl_update_lookup f fields d k :
  NoDup fields ->
  foldl (update_if_truthy f) d fields !! k =
  if decide (k ∈ fields) then update_val f (d !! k) else d !! k.
Proof.
  revert d. induction fields as [|x fields IH]; intros d Hnd; cbn [foldl].
  - case_decide as Hin; [by apply not_elem_of_nil in Hin | done].
  - apply NoDup_cons in Hnd as [Hx Hnd]. rewrite IH by done.
    rewrite update_if_truthy_lookup.
    destruct (decide (k = x)) as [->|Hkx].
    + rewrite decide_False by done. rewrite decide_True; [done|].
      apply elem_of_cons. by left.
    + destruct (decide (k ∈ fields)) as [Hin|Hin].
      * rewrite decide_True; [done|]. apply elem_of_cons. by right.
      * rewrite decide_False; [done|]. intros Hc. by apply elem_of_cons in Hc as [|].
Qed.

(** The markers are not sensitive fields. *)
Lemma markers_not_sensitive :
  ("_encrypted"%string ∉ sensitiveFields) /\ ("_encryptionVersion"%string ∉ sensitiveFields).
Proof. split; by_decide. Qed.

(** ** Behaviour against the cipher interface *)

Definition wf_record (r : record) : Prop := map_Forall (fun _ v => wf_val v) r.

(** The record the spec's open(seal(r)) would return, in this code's
    terms: every truthy sensitive field replaced by its string form. *)
Definition stringify_fields (r : record) : record :=
  foldl (update_if_truthy (fun v => JStr (to_string v))) r sensitiveFields.

(** The sealed-then-opened state machine of one record: either method
    may be called on whatever the record currently is. *)
Section Lifecycle.
Context `{FieldCipher}.

Inductive lifecycle_step : record -> record -> Prop :=
| seal_step r : lifecycle_step r (encryptApplicationData r)
| open_step r : lifecycle_step r (decryptApplicationData r).
End Lifecycle.

Section Lookups.
Context `{FieldCipher}.

Lemma encryptApplicationData_lookup r k :
  encryptApplicationData r !! k =
  if decide (k = "_encryptionVersion"%string) then Some (JStr (js:"1.0"))
  else if decide (k = "_encrypted"%string) then Some (JBool true)
  else if decide (k ∈ sensitiveFields)
       then update_val (fun v => JStr (fc_encrypt (to_string v))) (r !! k)
       else r !! k.
Proof.
  unfold encryptApplicationData.
  destruct (decide (k = "_encryptionVersion"%string)) as [->|H1].
  { by rewrite lookup_insert_eq. }
  rewrite lookup_insert_ne by congruence.
  destruct (decide (k = "_encrypted"%string)) as [->|H2].
  { by rewrite lookup_insert_eq. }
  rewrite lookup_insert_ne by congruence.
  apply foldl_update_lookup, sensitiveFields_NoDup.
Qed.

Lemma decryptApplicationData_lookup r k :
  truthy_opt (r !! "_encrypted") = true ->
  decryptApplicationData r !! k =
  if decide (k ∈ sensitiveFields) then update_val fc_decrypt (r !! k) else r !! k.
Proof.
  intros Hf. unfold decryptApplicationData. rewrite Hf, decryptSensitiveFields_eq.
  apply foldl_update_lookup, sensitiveFields_NoDup.
Qed.

Lemma decryptApplicationData_flag r :
  decryptApplicationData r !! "_encrypted" = r !! "_encrypted".
Proof.
  destruct (truthy_opt (r !! "_encrypted")) eqn:Hf.
  - rewrite decryptApplicationData_lookup by done.
    by rewrite decide_False by apply markers_not_sensitive.
  - unfold decryptApplicationData. by rewrite Hf.
Qed.

Lemma encryptApplicationData_flag r :
  encryptApplicationData r !! "_encrypted" = Some (JBool true).
Proof. rewrite encryptApplicationData_lookup. reflexivity. Qed.

End Lookups.

(** Sealing with one cipher and opening with another gives the string
    forms back as soon as the second opens what the first sealed. *)
Lemma cross_cycle (C1 C2 : FieldCipher) (r : record) :
  (forall k v, k ∈ sensitiveFields -> r !! k = Some v -> truthy v = true ->
     truthy (JStr (@fc_encrypt C1 (to_string v))) = true /\
     @fc_decrypt C2 (JStr (@fc_encrypt C1 (to_string v))) = JStr (to_string v)) ->
  @decryptApplicationData C2 (@encryptApplicationData C1 r) =
  <["_encryptionVersion" := JStr (js:"1.0")]> (<["_encrypted" := JBool true]> (stringify_fields r)).
Proof.
  intros Hfield. apply map_eq. intros k.
  rewrite decryptApplicationData_lookup by (by rewrite encryptApplicationData_flag).
  rewrite encryptApplicationData_lookup.
  destruct (decide (k = "_encryptionVersion"%string)) as [->|H1].
  { rewrite decide_False by apply markers_not_sensitive. by rewrite lookup_insert_eq. }
  rewrite lookup_insert_ne by congruence.
  destruct (decide (k = "_encrypted"%string)) as [->|H2].
  { rewrite decide_False by apply markers_not_sensitive. by rewrite lookup_insert_eq. }
  rewrite lookup_insert_ne by congruence.
  unfold stringify_fields. rewrite foldl_update_lookup by apply sensitiveFields_NoDup.
  destruct (decide (k ∈ sensitiveFields)) as [Hk|Hk]; [|done].
  destruct (r !! k) as [v|] eqn:E; [|done].
  destruct (truthy v) eqn:Hv.
  - destruct (Hfield k v Hk E Hv) as [Ht Hd]. cbn [update_val]. rewrite Hv.
    cbn [update_val]. by rewrite Ht, Hd.
  - cbn [update_val]. rewrite Hv. cbn [update_val]. by rewrite Hv.
Qed.

Section WithLaws.
Context `{Hlaws : FieldCipherLaws}.

(** Opening a freshly sealed field gives its string form back. *)
Lemma update_val_cycle o :
  (forall v, o = Some v -> wf_val v) ->
  update_val fc_decrypt (update_val (fun v => JStr (fc_encrypt (to_string v))) o) =
  update_val (fun v => JStr (to_string v)) o.
Proof.
  intros Hwf. destruct o as [v|]; simpl; [|done].
  destruct (truthy v) eqn:Hv; simpl; [|by rewrite Hv].
  pose proof (to_string_truthy_nonempty v Hv) as Hne.
  pose proof (to_string_wf v (Hwf v eq_refl)) as Hw.
  rewrite bool_decide_false by (by apply fc_encrypt_nonempty). simpl.
  by rewrite fc_decrypt_encrypt.
Qed.

Lemma wf_record_lookup r k v : wf_record r -> r !! k = Some v -> wf_val v.
Proof. intros Hr Hk. exact (map_Forall_lookup_1 _ _ _ _ Hr Hk). Qed.

Lemma cycle_lookup_sensitive r k :
  wf_record r -> k ∈ sensitiveFields ->
  decryptApplicationData (encryptApplicationData r) !! k =
  update_val (fun v => JStr (to_string v)) (r !! k).
Proof.
  intros Hr Hk. pose proof markers_not_sensitive as [Hm1 Hm2].
  rewrite decryptApplicationData_lookup by (by rewrite encryptApplicationData_flag).
  rewrite decide_True by done. rewrite encryptApplicationData_lookup.
  rewrite !decide_False by (intros ->; contradiction). rewrite decide_True by done.
  apply update_val_cycle. intros v Hv. by eapply wf_record_lookup.
Qed.

(** C1. Opening a freshly sealed record gives the record back with
    every truthy sensitive field turned into its string form, and with
    [_encrypted = true] and [_encryptionVersion = "1.0"]: numbers come
    back as decimal strings and the flag is not cleared. *)
Theorem decrypt_encrypt_record (r : record) :
  wf_record r ->
  decryptApplicationData (encryptApplicationData r) =
  <["_encryptionVersion" := JStr (js:"1.0")]> (<["_encrypted" := JBool true]> (stringify_fields r)).
Proof.
  intros Hr. apply cross_cycle. intros k v Hk E Hv.
  pose proof (to_string_truthy_nonempty v Hv) as Hne.
  pose proof (to_string_wf v (wf_record_lookup r k v Hr E)) as Hw.
  split; [simpl; by rewrite bool_decide_false by (by apply fc_encrypt_nonempty)|].
  by apply fc_decrypt_encrypt.
Qed.

(** C9. [encryptApplicationData] does not look at
    [_encrypted]: a second call seals every sealed field again. *)
Theorem encrypt_twice_double_seals (r : record) (f : string) (v : jsval) :
  f ∈ sensitiveFields -> r !! f = Some v -> truthy v = true -> wf_val v ->
  encryptApplicationData (encryptApplicationData r) !! f =
  Some (JStr (fc_encrypt (fc_encrypt (to_string v)))).
Proof.
  intros Hf Hv Ht Hw. pose proof markers_not_sensitive as [Hm1 Hm2].
  assert (encryptApplicationData r !! f = Some (JStr (fc_encrypt (to_string v)))) as E1.
  { rewrite encryptApplicationData_lookup.
    rewrite !decide_False by (intros ->; contradiction). rewrite decide_True by done.
    by rewrite Hv; simpl; rewrite Ht. }
  rewrite encryptApplicationData_lookup.
  rewrite !decide_False by (intros ->; contradiction). rewrite decide_True by done.
  rewrite E1. simpl.
  rewrite bool_decide_false; [done|].
  apply fc_encrypt_nonempty; [by apply to_string_wf | by apply to_string_truthy_nonempty].
Qed.

(** C10. [decryptApplicationData] leaves [_encrypted] set, so
    a second call runs [decrypt] again on the plaintext of each field. *)
Theorem decrypt_twice_reopens (r : record) (f : string) (v : jsval) :
  wf_record r -> f ∈ sensitiveFields -> r !! f = Some v -> truthy v = true ->
  decryptApplicationData (decryptApplicationData (encryptApplicationData r)) !! f =
  Some (fc_decrypt (JStr (to_string v))).
Proof.
  intros Hr Hf Hv Ht.
  rewrite decryptApplicationData_lookup
    by (by rewrite decryptApplicationData_flag, encryptApplicationData_flag).
  rewrite decide_True by done. rewrite cycle_lookup_sensitive by done.
  rewrite Hv. simpl. rewrite Ht. simpl.
  rewrite bool_decide_false; [done|]. by apply to_string_truthy_nonempty.
Qed.

(** C11. Once a record is sealed, no sequence of calls of the
    two methods ever clears [_encrypted]. *)
Theorem sealed_flag_invariant (r r' : record) :
  rtc lifecycle_step (encryptApplicationData r) r' ->
  r' !! "_encrypted" = Some (JBool true).
Proof.
  intros Hsteps. remember (encryptApplicationData r) as r0 eqn:E.
  assert (r0 !! "_encrypted" = Some (JBool true)) as H0
    by (subst; apply encryptApplicationData_flag).
  clear E. induction Hsteps as [|x y z Hxy _ IH]; [done|]. apply IH.
  destruct Hxy; [apply encryptApplicationData_flag | by rewrite decryptApplicationData_flag].
Qed.

End WithLaws.

(** ** Witnesses, with the session cipher of the source *)

Section Witnesses.
Import FinanceFlowCrypto.

(** The scenario of the specification: two string fields and
    [encrypted: false]; the session starts at a fixed clock reading. *)
Definition scenario : record :=
  <["legalName" := JStr (js:"Acme Pvt Ltd")]>
  (<["phoneNumber" := JStr (js:"9999999999")]> (<["_encrypted" := JBool false]> ∅)).

Definition session : FieldCipher := xor_field_cipher (constructor 1731000123456).

Lemma decrypt_encrypt_record_witness :
  wf_record scenario /\
  @decryptApplicationData session (@encryptApplicationData session scenario) =
  <["_encryptionVersion" := JStr (js:"1.0")]> (<["_encrypted" := JBool true]> scenario).
Proof.
  split; [by_decide|].
  rewrite (@decrypt_encrypt_record session (constructor_laws _) scenario) by by_decide.
  reflexivity.
Defined.

Lemma encrypt_twice_double_seals_witness :
  "legalName"%string ∈ sensitiveFields /\
  @encryptApplicationData session (@encryptApplicationData session scenario) !! "legalName" =
  Some (JStr (encrypt (constructor 1731000123456)
                (encrypt (constructor 1731000123456) (js:"Acme Pvt Ltd")))) /\
  @encryptApplicationData session (@encryptApplicationData session scenario) !! "legalName" <>
  @encryptApplicationData session scenario !! "legalName".
Proof.
  split; [by_decide|]. split.
  - apply (@encrypt_twice_double_seals session (constructor_laws _) scenario "legalName"
             (JStr (js:"Acme Pvt Ltd"))); [by_decide | reflexivity | reflexivity | by_decide].
  - vm_compute. congruence.
Defined.

(** A legal name that happens to be valid base 64 ("abcd") is altered
    by a second [decryptApplicationData]. *)
Lemma decrypt_twice_reopens_witness :
  wf_record (<["legalName" := JStr (js:"abcd")]> ∅) /\
  @decryptApplicationData session (@decryptApplicationData session
    (@encryptApplicationData session (<["legalName" := JStr (js:"abcd")]> ∅))) !! "legalName" =
  Some (decrypt (constructor 1731000123456) (JStr (js:"abcd"))) /\
  decrypt (constructor 1731000123456) (JStr (js:"abcd")) <> JStr (js:"abcd").
Proof.
  split; [by_decide|]. split.
  - apply (@decrypt_twice_reopens session (constructor_laws _) _ "legalName"
             (JStr (js:"abcd"))); [by_decide | by_decide | reflexivity | reflexivity].
  - vm_compute. congruence.
Defined.

Lemma sealed_flag_invariant_witness :
  rtc (@lifecycle_step session) (@encryptApplicationData session scenario)
    (@decryptApplicationData session (@encryptApplicationData session scenario)) /\
  @decryptApplicationData session (@encryptApplicationData session scenario)
    !! "_encrypted" = Some (JBool true).
Proof.
  assert (rtc (@lifecycle_step session) (@encryptApplicationData session scenario)
    (@decryptApplicationData session (@encryptApplicationData session scenario))) as Hs
    by (apply rtc_once; constructor).
  split; [exact Hs|]. exact (sealed_flag_invariant _ _ Hs).
Defined.

End Witnesses.

(** ** Two sessions *)

Section CrossSession.
Import FinanceFlowCrypto.

(** Every truthy sensitive field has a string form of at most 24 code
    units. *)
Definition short_fields (r : record) : bool :=
  forallb (fun f => match r !! f with
                    | Some v => negb (truthy v) || bool_decide (length (to_string v) <= 24)%nat
                    | None => true
                    end) sensitiveFields.

(** C6. The spec's wrong-key scenario: a record whose
    sensitive fields are short, sealed in one session and opened in
    another, comes back exactly as it does in its own session, with no
    error reported for any field. *)
Theorem other_session_opens_short_record (t1 t2 : Z) (r : record) :
  10 ^ 5 <= t1 -> 10 ^ 5 <= t2 -> wf_record r -> short_fields r = true ->
  @decryptApplicationData (xor_field_cipher (constructor t2))
    (@encryptApplicationData (xor_field_cipher (constructor t1)) r) =
  <["_encryptionVersion" := JStr (js:"1.0")]> (<["_encrypted" := JBool true]> (stringify_fields r)).
Proof.
  intros H1 H2 Hr Hs. apply cross_cycle. intros k v Hk E Hv. simpl.
  pose proof (to_string_truthy_nonempty v Hv) as Hne.
  pose proof (to_string_wf v (wf_record_lookup r k v Hr E)) as Hw.
  assert (length (to_string v) <= 24)%nat as Hlen.
  { unfold short_fields in Hs. rewrite forallb_forall in Hs.
    specialize (Hs k (proj1 (list_elem_of_In _ _) Hk)). rewrite E, Hv in Hs.
    simpl in Hs. by apply bool_decide_eq_true in Hs. }
  split; [|by apply short_field_cross_session].
  rewrite bool_decide_false; [done|].
  by apply (@fc_encrypt_nonempty _ (constructor_laws t1)).
Qed.

Lemma other_session_opens_short_record_witness :
  short_fields scenario = true /\ wf_record scenario /\
  @decryptApplicationData (xor_field_cipher (constructor 1731000999999))
    (@encryptApplicationData (xor_field_cipher (constructor 1731000123456)) scenario) =
  <["_encryptionVersion" := JStr (js:"1.0")]> (<["_encrypted" := JBool true]> scenario).
Proof.
  assert (wf_record scenario) as Hw by by_decide.
  split; [reflexivity|]. split; [exact Hw|].
  rewrite (other_session_opens_short_record 1731000123456 1731000999999 scenario
             ltac:(lia) ltac:(lia) Hw eq_refl).
  reflexivity.
Defined.

End CrossSession.

End RecordTransform.
